(** * The forwarding gateway: app/api/v1/[[...path]]/route.ts

    A shallow embedding of the route module and of the part of its
    platform that it calls, followed by the properties of the gateway. *)

From Stdlib Require Import ZArith Ascii String List.
From stdpp Require Import gmap strings list fin_maps pretty.

Local Open Scope Z_scope.

(** ** JavaScript values and control flow used by the module *)

Module Js.

(** What a [throw] (or a rejected promise) carries: an [Error], of which
    the module reads only [message], or any other value. *)
Inductive Thrown : Type :=
| ThrownError (message : string)
| ThrownOther.

(** How an evaluation ends. *)
Inductive Completion (A : Type) : Type :=
| Normal (a : A)
| Abrupt (e : Thrown).
Arguments Normal {A} a.
Arguments Abrupt {A} e.

(** [a || b] on values that are a string or [undefined]/[null]: the empty
    string is falsy, as are [undefined] and [null]. *)
Definition or_else (a b : option string) : option string :=
  match a with
  | Some s => if decide (s = "") then b else a
  | None => b
  end.

(** [a || 'literal']. *)
Definition or_literal (a : option string) (literal : string) : string :=
  match a with
  | Some s => if decide (s = "") then literal else s
  | None => literal
  end.

(** [String.prototype.toLowerCase]. Header names are ASCII, where it turns
    A..Z into a..z and leaves every other character. *)
Definition lower_ascii (c : ascii) : ascii :=
  let n := nat_of_ascii c in
  if ((65 <=? n)%nat && (n <=? 90)%nat)%bool then ascii_of_nat (n + 32) else c.

Fixpoint toLowerCase (s : string) : string :=
  match s with
  | EmptyString => EmptyString
  | String c s' => String (lower_ascii c) (toLowerCase s')
  end.

(** [Array.prototype.join] on an array of strings. *)
Definition join (sep : string) (xs : list string) : string := String.concat sep xs.

End Js.
Import Js.

(** ** The platform objects the module touches *)

(** What the URL parser makes of a string it accepts: the scheme, host,
    port and path as it has normalised them (the [href] up to the query),
    the pairs of the query, and the fragment ([hash]). *)
Record URLParts : Type := {
  parts_location : string;
  parts_query : list (string * string);
  parts_hash : string
}.

(** A [URL] object: its location, the pairs of its [searchParams] and its
    [hash]; [url_input] recalls the string it was constructed from. *)
Record URL : Type := {
  url_input : string;
  url_location : string;
  url_searchParams : list (string * string);
  url_hash : string
}.

(** [url.searchParams.append(key, value)]. *)
Definition searchParams_append (url : URL) (key value : string) : URL :=
  {| url_input := url_input url;
     url_location := url_location url;
     url_searchParams := url_searchParams url ++ [(key, value)];
     url_hash := url_hash url |}.

(** The [RequestInit] the handler fills: method, headers, and a body when
    there is one to send. *)
Record RequestInit : Type := {
  ri_method : string;
  ri_headers : gmap string string;
  ri_body : option (list Byte.byte)
}.

(** An outbound call as the backend sees it: the URL and what the
    [RequestInit] held. *)
Record FetchCall : Type := {
  call_url : URL;
  call_method : string;
  call_headers : gmap string string;
  call_body : option (list Byte.byte)
}.

(** The [Response] that [fetch] resolves to. [bk_headers] is its header
    list; [bk_arrayBuffer] is what [arrayBuffer()] settles to. *)
Record BackendResponse : Type := {
  bk_status : Z;
  bk_statusText : string;
  bk_headers : list (string * string);
  bk_arrayBuffer : Completion (list Byte.byte)
}.

(** [Headers.prototype.get]: [null] when no header matches the name
    case-insensitively, otherwise the matching values joined by ", ". *)
Definition Headers_get (hs : list (string * string)) (name : string) : option string :=
  match List.filter (fun h => String.eqb (toLowerCase (fst h)) (toLowerCase name)) hs with
  | [] => None
  | matching => Some (join ", " (List.map snd matching))
  end.

(** The inbound [NextRequest]. [req_headers] and [req_searchParams] list
    the (name, value) pairs in the order [forEach] visits them. [req_body]
    is [request.body]: [None] for [null], otherwise a stream, given by what
    [request.arrayBuffer()] settles to when it is read to the end. *)
Record NextRequest : Type := {
  req_method : string;
  req_headers : list (string * string);
  req_searchParams : list (string * string);
  req_body : option (Completion (list Byte.byte))
}.

(** The route context: [{ params: { path?: string[] } }]. *)
Record Context : Type := {
  path : option (list string)
}.

(** A response body: the bytes of an [ArrayBuffer], or the JSON text of an
    object whose properties are strings, kept as its list of properties. *)
Inductive BodyInit : Type :=
| BodyBuffer (bytes : list Byte.byte)
| BodyJSON (properties : list (string * string)).

Record ResponseInit : Type := {
  init_status : Z;
  init_statusText : string;
  init_headers : list (string * string)
}.

Record NextResponse : Type := {
  res_body : option BodyInit;
  res_status : Z;
  res_statusText : string;
  res_headers : list (string * string)
}.

(** What the runtime decides: whether [new URL(s)] throws and what its
    parser makes of [s] when it does not, what a [fetch] settles to, and the
    wording of the error the [Response] constructor throws for a status it
    refuses. *)
Record Runtime : Type := {
  URL_failure : string -> option Thrown;
  URL_parts : string -> URLParts;
  fetch_outcome : FetchCall -> Completion BackendResponse;
  Response_status_message : Z -> string
}.

(** ** Asynchronous tasks: exceptions and the log of outbound calls *)

Definition Task (A : Type) : Type :=
  list FetchCall -> Completion A * list FetchCall.

Definition ret {A} (a : A) : Task A := fun log => (Normal a, log).

Definition bind {A B} (t : Task A) (k : A -> Task B) : Task B :=
  fun log =>
    match t log with
    | (Normal a, log') => k a log'
    | (Abrupt e, log') => (Abrupt e, log')
    end.

(** [await] of something that settles without further effects. *)
Definition await {A} (c : Completion A) : Task A := fun log => (c, log).

(** [try { body } catch (error) { recover }]. *)
Definition try_catch {A} (body : Task A) (recover : Thrown -> Task A) : Task A :=
  fun log =>
    match body log with
    | (Normal a, log') => (Normal a, log')
    | (Abrupt e, log') => recover e log'
    end.

Declare Scope task_scope.
Delimit Scope task_scope with task.
Notation "'let*' x ':=' t 'in' k" := (bind t (fun x => k))
  (at level 10, x name, t at level 100, k at level 200) : task_scope.
Local Open Scope task_scope.

(** [new URL(s)]: the string is parsed, and the object holds what the
    parser found, the query it found included. *)
Definition new_URL (rt : Runtime) (s : string) : Completion URL :=
  match URL_failure rt s with
  | Some e => Abrupt e
  | None =>
      Normal {| url_input := s;
                url_location := parts_location (URL_parts rt s);
                url_searchParams := parts_query (URL_parts rt s);
                url_hash := parts_hash (URL_parts rt s) |}
  end.

(** ** The URL parser on plain URLs

    What the parser of the URL standard makes of an absolute URL written
    scheme://authority/path?query#fragment in plain ASCII, with scheme and
    host in lower case, no default port, no user information, and none of
    the characters the parser would rewrite or escape (backslash, percent,
    plus, space, quotes, control characters): the string is cut at the first
    # and the first ? before it, the query is cut into pairs at & and =, and
    the dot segments of the path are resolved. *)

Module PlainURL.

(** The text before the first [c], and the text after it when [c] occurs. *)
Fixpoint cut (c : ascii) (s : string) : string * option string :=
  match s with
  | EmptyString => (EmptyString, None)
  | String a s' =>
      if Ascii.eqb a c then (EmptyString, Some s')
      else let '(before, after) := cut c s' in (String a before, after)
  end.

(** The pieces of [s] between the occurrences of [c]. *)
Fixpoint pieces (c : ascii) (s : string) : list string :=
  match s with
  | EmptyString => [EmptyString]
  | String a s' =>
      if Ascii.eqb a c then EmptyString :: pieces c s'
      else
        match pieces c s' with
        | first :: others => String a first :: others
        | [] => [String a EmptyString]
        end
  end.

(** The pairs of a query string: empty pieces are skipped, a piece without
    = is a name with an empty value. *)
Definition pairs (query : string) : list (string * string) :=
  List.map (fun piece => let '(name, value) := cut "=" piece in (name, default "" value))
           (List.filter (fun piece => negb (String.eqb piece "")) (pieces "&" query)).

(** Path segments, the last kept first in [done]: ".." drops the segment
    before it, "." is dropped; either as last segment leaves the path ending
    in a slash. *)
Fixpoint resolve (segments done : list string) : list string :=
  match segments with
  | [] => rev done
  | [segment] =>
      if String.eqb segment ".." then rev ("" :: tail done)
      else if String.eqb segment "." then rev ("" :: done)
      else rev (segment :: done)
  | segment :: rest =>
      if String.eqb segment ".." then resolve rest (tail done)
      else if String.eqb segment "." then resolve rest done
      else resolve rest (segment :: done)
  end.

Definition parse (s : string) : URLParts :=
  let '(before_hash, fragment) := cut "#" s in
  let '(before_query, query) := cut "?" before_hash in
  let location :=
    match cut ":" before_query with
    | (scheme, Some (String "/" (String "/" after_slashes))) =>
        let '(authority, path) := cut "/" after_slashes in
        scheme +:+ "://" +:+ authority +:+ "/"
          +:+ join "/" (resolve (pieces "/" (default "" path)) [])
    | _ => before_query
    end in
  {| parts_location := location;
     parts_query := pairs (default "" query);
     parts_hash :=
       match fragment with
       | Some (String a rest) => String "#" (String a rest)
       | _ => ""
       end |}.

End PlainURL.

(** [fetch(url.toString(), init)]: the call is recorded, then settles as the
    runtime decides. The URL travels as the [URL] object that [toString]
    serialises. *)
Definition fetch (rt : Runtime) (url : URL) (init : RequestInit) : Task BackendResponse :=
  fun log =>
    let call := {| call_url := url;
                   call_method := ri_method init;
                   call_headers := ri_headers init;
                   call_body := ri_body init |} in
    (fetch_outcome rt call, log ++ [call]).

(** Statuses that cannot carry a body (Fetch standard). *)
Definition null_body_status (status : Z) : bool :=
  bool_decide (status ∈ [101; 103; 204; 205; 304]).

(** [new NextResponse(body, init)], that is the [Response] constructor: a
    [RangeError] when the status is outside 200..599, a [TypeError] when a
    body is given with a null body status. *)
Definition new_NextResponse (rt : Runtime) (body : option BodyInit) (init : ResponseInit)
  : Completion NextResponse :=
  let status := init_status init in
  if negb ((200 <=? status) && (status <=? 599))%bool then
    Abrupt (ThrownError (Response_status_message rt status))
  else if (bool_decide (is_Some body) && null_body_status status)%bool then
    Abrupt (ThrownError (Response_status_message rt status))
  else
    Normal {| res_body := body;
              res_status := status;
              res_statusText := init_statusText init;
              res_headers := init_headers init |}.

(** [NextResponse.json(data, { status })] for an object of string
    properties. *)
Definition NextResponse_json (rt : Runtime) (data : list (string * string)) (status : Z)
  : Completion NextResponse :=
  new_NextResponse rt (Some (BodyJSON data))
    {| init_status := status;
       init_statusText := "";
       init_headers := [("content-type", "application/json")] |}.

(** ** The route module *)

(** [process.env] is a map from names to strings.

    const BACKEND_URL = process.env.BACKEND_API_URL ||
    process.env.NEXT_PUBLIC_API_URL || 'http://localhost:8000'; *)
Definition BACKEND_URL (env : gmap string string) : string :=
  or_literal
    (or_else (env !! "BACKEND_API_URL") (env !! "NEXT_PUBLIC_API_URL"))
    "http://localhost:8000".

Definition skipHeaders : gset string :=
  {[ "host"; "connection"; "keep-alive"; "transfer-encoding"; "upgrade";
     "content-length" ]}.

Definition getForwardHeaders (request : NextRequest) : gmap string string :=
  foldl
    (fun (headers : gmap string string) '(key, value) =>
       if decide (toLowerCase key ∈ skipHeaders) then headers
       else <[key := value]> headers)
    ∅ (req_headers request).

(** [error instanceof Error ? error.message : 'Unknown error']. *)
Definition error_message (error : Thrown) : string :=
  match error with
  | ThrownError message => message
  | ThrownOther => "Unknown error"
  end.

Section Route.

Variable rt : Runtime.
(** The module constant, evaluated when the module is loaded. *)
Variable backend_url : string.

(** The two [console] lines write to the server log only and are left
    out. *)
Definition handler (request : NextRequest) (context : Context) : Task NextResponse :=
  try_catch
    (let path := or_literal (option_map (join "/") (path context)) "" in
     let* url := await (new_URL rt (backend_url +:+ "/api/v1/" +:+ path)) in
     let url :=
       foldl (fun u '(key, value) => searchParams_append u key value)
             url (req_searchParams request) in
     let requestOptions :=
       {| ri_method := req_method request;
          ri_headers := getForwardHeaders request;
          ri_body := None |} in
     let* requestOptions :=
       match
         (if (negb (String.eqb (req_method request) "GET")
              && negb (String.eqb (req_method request) "HEAD"))%bool
          then req_body request else None)
       with
       | Some stream =>
           let* body := await stream in
           if 0 <? Z.of_nat (length body) then
             ret {| ri_method := ri_method requestOptions;
                    ri_headers := ri_headers requestOptions;
                    ri_body := Some body |}
           else ret requestOptions
       | None => ret requestOptions
       end in
     let* backendResponse := fetch rt url requestOptions in
     let* responseBody := await (bk_arrayBuffer backendResponse) in
     await
       (new_NextResponse rt (Some (BodyBuffer responseBody))
          {| init_status := bk_status backendResponse;
             init_statusText := bk_statusText backendResponse;
             init_headers :=
               [ ("Content-Type",
                  or_literal (Headers_get (bk_headers backendResponse) "Content-Type")
                             "application/json");
                 ("Cache-Control",
                  or_literal (Headers_get (bk_headers backendResponse) "Cache-Control")
                             "no-store");
                 ("Access-Control-Allow-Origin", "*");
                 ("Access-Control-Allow-Methods", "GET, POST, PUT, DELETE, OPTIONS");
                 ("Access-Control-Allow-Headers", "Content-Type, Authorization") ] |}))
    (fun error =>
       await
         (NextResponse_json rt
            [ ("error", "Backend connection failed");
              ("message", error_message error);
              ("backend_url", backend_url) ]
            502)).

Definition GET := handler.
Definition POST := handler.
Definition PUT := handler.
Definition DELETE := handler.
Definition PATCH := handler.

Definition OPTIONS (request : NextRequest) (context : Context) : Task NextResponse :=
  await
    (new_NextResponse rt None
       {| init_status := 204;
          init_statusText := "";
          init_headers :=
            [ ("Access-Control-Allow-Origin", "*");
              ("Access-Control-Allow-Methods", "GET, POST, PUT, DELETE, PATCH, OPTIONS");
              ("Access-Control-Allow-Headers", "Content-Type, Authorization");
              ("Access-Control-Max-Age", "86400") ] |}).

End Route.

(** ** How the framework calls the module, and how a process runs it *)

Module Next.

Definition RouteHandler : Type := NextRequest -> Context -> Task NextResponse.

Section Loaded.

Variable rt : Runtime.
Variable backend_url : string.

(** The functions the loaded module exports, by name. *)
Definition exports (name : string) : option RouteHandler :=
  if decide (name = "GET") then Some (GET rt backend_url)
  else if decide (name = "POST") then Some (POST rt backend_url)
  else if decide (name = "PUT") then Some (PUT rt backend_url)
  else if decide (name = "DELETE") then Some (DELETE rt backend_url)
  else if decide (name = "PATCH") then Some (PATCH rt backend_url)
  else if decide (name = "OPTIONS") then Some (OPTIONS rt)
  else None.

(** The framework picks the export named after the request method; a
    module that exports [GET] but no [HEAD] has its [GET] export answer
    HEAD requests; any other method without an export is refused: with 405
    when it is one of the seven methods a route module can export, with 400
    when it is not. *)
Definition route (method : string) : option RouteHandler :=
  match exports method with
  | Some h => Some h
  | None => if decide (method = "HEAD") then exports "GET" else None
  end.

(** The framework's own answers to a method it finds no export for. *)
Definition method_not_allowed : NextResponse :=
  {| res_body := None;
     res_status := 405;
     res_statusText := "";
     res_headers := [] |}.

Definition bad_request : NextResponse :=
  {| res_body := None;
     res_status := 400;
     res_statusText := "";
     res_headers := [] |}.

Definition HTTP_METHODS : list string :=
  ["GET"; "HEAD"; "OPTIONS"; "POST"; "PUT"; "DELETE"; "PATCH"].

Definition serve (request : NextRequest) (context : Context) : Task NextResponse :=
  match route (req_method request) with
  | Some h => h request context
  | None =>
      if bool_decide (req_method request ∈ HTTP_METHODS)
      then ret method_not_allowed
      else ret bad_request
  end.

End Loaded.

(** A server process: [process.env], which may change while the process
    runs, the module constant fixed when the module was loaded, the
    outbound calls made so far and the responses given so far. *)
Record Process : Type := {
  proc_env : gmap string string;
  proc_BACKEND_URL : string;
  proc_calls : list FetchCall;
  proc_responses : list (Completion NextResponse)
}.

(** Loading the module evaluates its constant, once. *)
Definition start (env : gmap string string) : Process :=
  {| proc_env := env;
     proc_BACKEND_URL := BACKEND_URL env;
     proc_calls := [];
     proc_responses := [] |}.

(** What happens to a running process: its environment changes, or a
    request comes in (with what the runtime will decide while it is
    served). *)
Inductive Event : Type :=
| SetEnv (name value : string)
| UnsetEnv (name : string)
| Inbound (rt : Runtime) (request : NextRequest) (context : Context).

Definition step (p : Process) (ev : Event) : Process :=
  match ev with
  | SetEnv name value =>
      {| proc_env := <[name := value]> (proc_env p);
         proc_BACKEND_URL := proc_BACKEND_URL p;
         proc_calls := proc_calls p;
         proc_responses := proc_responses p |}
  | UnsetEnv name =>
      {| proc_env := delete name (proc_env p);
         proc_BACKEND_URL := proc_BACKEND_URL p;
         proc_calls := proc_calls p;
         proc_responses := proc_responses p |}
  | Inbound rt request context =>
      let '(response, calls) :=
        serve rt (proc_BACKEND_URL p) request context (proc_calls p) in
      {| proc_env := proc_env p;
         proc_BACKEND_URL := proc_BACKEND_URL p;
         proc_calls := calls;
         proc_responses := proc_responses p ++ [response] |}
  end.

Definition run (env : gmap string string) (events : list Event) : Process :=
  foldl step (start env) events.

End Next.

(** ** The handler seen stage by stage, and sample inputs *)

(** The 502 answer of the [catch] block. *)
Definition error_envelope (backend_url : string) (error : Thrown) : NextResponse :=
  {| res_body :=
       Some (BodyJSON [ ("error", "Backend connection failed");
                        ("message", error_message error);
                        ("backend_url", backend_url) ]);
     res_status := 502;
     res_statusText := "";
     res_headers := [("content-type", "application/json")] |}.

(** The string handed to [new URL]. *)
Definition target (backend_url : string) (context : Context) : string :=
  backend_url +:+ "/api/v1/" +:+ join "/" (default [] (path context)).

(** The stream the handler reads, if it reads one. *)
Definition stream_read (request : NextRequest) : option (Completion (list Byte.byte)) :=
  if (negb (String.eqb (req_method request) "GET")
      && negb (String.eqb (req_method request) "HEAD"))%bool
  then req_body request else None.

(** The [init] of the relayed response. *)
Definition relayed_init (r : BackendResponse) : ResponseInit :=
  {| init_status := bk_status r;
     init_statusText := bk_statusText r;
     init_headers :=
       [ ("Content-Type", or_literal (Headers_get (bk_headers r) "Content-Type") "application/json");
         ("Cache-Control", or_literal (Headers_get (bk_headers r) "Cache-Control") "no-store");
         ("Access-Control-Allow-Origin", "*");
         ("Access-Control-Allow-Methods", "GET, POST, PUT, DELETE, OPTIONS");
         ("Access-Control-Allow-Headers", "Content-Type, Authorization") ] |}.

(** The [RequestInit] and URL the handler hands to [fetch], given the body
    it decided to send. *)
Definition outbound (rt : Runtime) (backend_url : string) (request : NextRequest)
           (context : Context) (body : option (list Byte.byte)) : FetchCall :=
  {| call_url :=
       {| url_input := target backend_url context;
          url_location := parts_location (URL_parts rt (target backend_url context));
          url_searchParams :=
            parts_query (URL_parts rt (target backend_url context))
            ++ req_searchParams request;
          url_hash := parts_hash (URL_parts rt (target backend_url context)) |};
     call_method := req_method request;
     call_headers := getForwardHeaders request;
     call_body := body |}.

(** The body put in the [RequestInit] once the inbound one is read. *)
Definition body_sent (bytes : list Byte.byte) : option (list Byte.byte) :=
  if 0 <? Z.of_nat (length bytes) then Some bytes else None.

(** What the handler answers once [fetch] has settled. *)
Definition answer (rt : Runtime) (backend_url : string)
           (settled : Completion BackendResponse) : NextResponse :=
  match settled with
  | Abrupt e => error_envelope backend_url e
  | Normal r =>
      match bk_arrayBuffer r with
      | Abrupt e => error_envelope backend_url e
      | Normal bytes =>
          match new_NextResponse rt (Some (BodyBuffer bytes)) (relayed_init r) with
          | Abrupt e => error_envelope backend_url e
          | Normal response => response
          end
      end
  end.

(** The callback of [request.headers.forEach]. *)
Definition forward_one (headers : gmap string string) (entry : string * string)
  : gmap string string :=
  let '(key, value) := entry in
  if decide (toLowerCase key ∈ skipHeaders) then headers else <[key := value]> headers.

(** A backend that answers 201 with a JSON body to whatever it is sent. *)
Definition sample_runtime : Runtime :=
  {| URL_failure := fun _ => None;
     URL_parts := PlainURL.parse;
     fetch_outcome := fun _ =>
       Normal {| bk_status := 201;
                 bk_statusText := "Created";
                 bk_headers := [("content-type", "application/json")];
                 bk_arrayBuffer := Normal [Byte.x7b; Byte.x7d] |};
     Response_status_message := fun _ => "Invalid response status code" |}.

(** A POST with a two-byte body, a repeated query key and a Host header. *)
Definition sample_request : NextRequest :=
  {| req_method := "POST";
     req_headers := [("authorization", "Bearer t"); ("host", "ui.example.org")];
     req_searchParams := [("tag", "a"); ("tag", "b"); ("q", "")];
     req_body := Some (Normal [Byte.x7b; Byte.x7d]) |}.

Definition sample_context : Context := {| path := Some ["linguistic"; "stats"] |}.

(** The call that request gives rise to. *)
Definition sample_call : FetchCall :=
  outbound sample_runtime "http://localhost:8000" sample_request sample_context
           (Some [Byte.x7b; Byte.x7d]).

(** A GET with one query parameter, a path whose only segment holds a
    question mark, and a path whose only segment holds dot segments. *)
Definition keyed_get : NextRequest :=
  {| req_method := "GET";
     req_headers := [];
     req_searchParams := [("k", "v")];
     req_body := None |}.

Definition query_in_segment : Context := {| path := Some ["a?x=1"] |}.

Definition dots_in_segment : Context := {| path := Some ["../../admin"] |}.

(** A request with two headers of the same name, as [Headers] lists
    repeated Set-Cookie headers. *)
Definition two_cookies : NextRequest :=
  {| req_method := "GET";
     req_headers := [("set-cookie", "a=1"); ("set-cookie", "b=2")];
     req_searchParams := [];
     req_body := None |}.

(** A backend that refuses connections. *)
Definition refusing_runtime : Runtime :=
  {| URL_failure := fun _ => None;
     URL_parts := PlainURL.parse;
     fetch_outcome := fun _ => Abrupt (ThrownError "fetch failed");
     Response_status_message := fun _ => "Invalid response status code" |}.

(** A backend that sends a Content-Type header with an empty value. *)
Definition blank_type_runtime : Runtime :=
  {| URL_failure := fun _ => None;
     URL_parts := PlainURL.parse;
     fetch_outcome := fun _ =>
       Normal {| bk_status := 200;
                 bk_statusText := "OK";
                 bk_headers := [("content-type", "")];
                 bk_arrayBuffer := Normal [] |};
     Response_status_message := fun _ => "Invalid response status code" |}.

Definition plain_get : NextRequest :=
  {| req_method := "GET"; req_headers := []; req_searchParams := []; req_body := None |}.

(** A backend that answers 204 No Content. *)
Definition no_content_runtime : Runtime :=
  {| URL_failure := fun _ => None;
     URL_parts := PlainURL.parse;
     fetch_outcome := fun _ =>
       Normal {| bk_status := 204;
                 bk_statusText := "No Content";
                 bk_headers := [];
                 bk_arrayBuffer := Normal [] |};
     Response_status_message := fun _ => "Invalid response status code" |}.

Definition preflight_request : NextRequest :=
  {| req_method := "OPTIONS";
     req_headers := [("origin", "https://ui.example.org")];
     req_searchParams := [];
     req_body := None |}.

(** The steps of the handler that can throw, with what they throw: building
    the URL, reading the inbound body, the outbound call, reading the
    backend's body, building the relayed response. *)
Inductive Throws (rt : Runtime) (backend_url : string)
          (request : NextRequest) (context : Context) : Thrown -> Prop :=
| Throws_URL e :
    URL_failure rt (target backend_url context) = Some e ->
    Throws rt backend_url request context e
| Throws_request_body e :
    URL_failure rt (target backend_url context) = None ->
    stream_read request = Some (Abrupt e) ->
    Throws rt backend_url request context e
| Throws_fetch call e :
    call ∈ (handler rt backend_url request context []).2 ->
    fetch_outcome rt call = Abrupt e ->
    Throws rt backend_url request context e
| Throws_response_body call r e :
    call ∈ (handler rt backend_url request context []).2 ->
    fetch_outcome rt call = Normal r ->
    bk_arrayBuffer r = Abrupt e ->
    Throws rt backend_url request context e
| Throws_Response call r bytes e :
    call ∈ (handler rt backend_url request context []).2 ->
    fetch_outcome rt call = Normal r ->
    bk_arrayBuffer r = Normal bytes ->
    new_NextResponse rt (Some (BodyBuffer bytes)) (relayed_init r) = Abrupt e ->
    Throws rt backend_url request context e.

(** An upload that breaks off while the gateway reads it. *)
Definition aborted_upload : NextRequest :=
  {| req_method := "POST";
     req_headers := [("content-type", "application/json")];
     req_searchParams := [];
     req_body := Some (Abrupt (ThrownError "aborted")) |}.

(** A HEAD request. *)
Definition head_request : NextRequest :=
  {| req_method := "HEAD"; req_headers := []; req_searchParams := []; req_body := None |}.

(** ** More views of the gateway *)

(** The request with another body, and with other headers. *)
Definition with_body (request : NextRequest)
           (body : option (Completion (list Byte.byte))) : NextRequest :=
  {| req_method := req_method request;
     req_headers := req_headers request;
     req_searchParams := req_searchParams request;
     req_body := body |}.

Definition with_headers (request : NextRequest)
           (headers : list (string * string)) : NextRequest :=
  {| req_method := req_method request;
     req_headers := headers;
     req_searchParams := req_searchParams request;
     req_body := req_body request |}.

(** The requests among the events of a process. *)
Definition inbound_count (events : list Next.Event) : nat :=
  length (List.filter (fun ev => match ev with Next.Inbound _ _ _ => true | _ => false end)
                      events).

(** A response the handler did not have to replace by its envelope. *)
Definition completed_normally {A} (c : Completion A) : Prop :=
  match c with Normal _ => True | Abrupt _ => False end.

(** ** The components that call the gateway *)

(** Event handlers of a component: they read and set the component's state
    and may throw. *)
Definition Act (S A : Type) : Type := S -> Completion A * S.

Definition act_ret {S A} (a : A) : Act S A := fun s => (Normal a, s).

Definition act_bind {S A B} (m : Act S A) (k : A -> Act S B) : Act S B :=
  fun s =>
    match m s with
    | (Normal a, s') => k a s'
    | (Abrupt e, s') => (Abrupt e, s')
    end.

Definition act_throw {S A} (e : Thrown) : Act S A := fun s => (Abrupt e, s).

Definition act_await {S A} (c : Completion A) : Act S A := fun s => (c, s).

(** A call of one of the setters [useState] gives. *)
Definition act_set {S} (f : S -> S) : Act S unit := fun s => (Normal tt, f s).

(** [try { body } catch (err) { recover }]. *)
Definition act_try_catch {S A} (body : Act S A) (recover : Thrown -> Act S A) : Act S A :=
  fun s =>
    match body s with
    | (Normal a, s') => (Normal a, s')
    | (Abrupt e, s') => recover e s'
    end.

(** [try { body } finally { cleanup }]. *)
Definition act_finally {S A} (body : Act S A) (cleanup : Act S unit) : Act S A :=
  fun s =>
    match body s with
    | (c, s') =>
        match cleanup s' with
        | (Normal _, s'') => (c, s'')
        | (Abrupt e, s'') => (Abrupt e, s'')
        end
    end.

Declare Scope act_scope.
Delimit Scope act_scope with act.
Notation "'let!' x ':=' m 'in' k" := (act_bind m (fun x => k))
  (at level 10, x name, m at level 100, k at level 200) : act_scope.
Notation "'do!' m 'in' k" := (act_bind m (fun _ => k))
  (at level 10, m at level 100, k at level 200) : act_scope.

(** *** components/GraphFilters.tsx *)

Module GraphFilters.

(** A [Set<string>], kept as its elements in insertion order. *)
Definition Set_has (s : list string) (x : string) : bool := bool_decide (x ∈ s).

Definition Set_add (s : list string) (x : string) : list string :=
  if Set_has s x then s else s ++ [x].

Definition Set_delete (s : list string) (x : string) : list string :=
  filter (fun y => y <> x) s.

(** The object handed to [onFilterChange]. *)
Record Filters : Type := {
  textId : option string;
  language : option string;
  nodeTypes : option (list string);
  limit : Z
}.

(** The state the handlers read and set; [limit_state] is the hook named
    [limit]. *)
Record State : Type := {
  selectedText : string;
  selectedLanguage : string;
  selectedNodeTypes : list string;
  limit_state : Z;
  hierarchyLevel : string
}.

Section Component.

(** The [initialLimit] prop. *)
Variable initialLimit : option Z.

(** [initialLimit ?? 200]. *)
Definition resolvedInitialLimit : Z :=
  match initialLimit with
  | Some n => n
  | None => 200
  end.

(** The state of the first render. *)
Definition initial : State :=
  {| selectedText := "";
     selectedLanguage := "";
     selectedNodeTypes := [];
     limit_state := resolvedInitialLimit;
     hierarchyLevel := "all" |}.

(** Each handler gives the next state and the calls of [onFilterChange] it
    made. *)
Definition handleApplyFilters (st : State) : State * list Filters :=
  let nodeTypes :=
    if (0 <? length (selectedNodeTypes st))%nat
    then Some (selectedNodeTypes st) else None in
  let nodeTypes :=
    if negb (String.eqb (hierarchyLevel st) "all") then
      if String.eqb (hierarchyLevel st) "high" then
        Some ["Text"; "Section"]
      else if String.eqb (hierarchyLevel st) "medium" then
        Some ["Text"; "Section"; "Phrase"]
      else if String.eqb (hierarchyLevel st) "detailed" then
        Some ["Text"; "Section"; "Phrase"; "Word"]
      else if String.eqb (hierarchyLevel st) "full" then
        Some ["Text"; "Section"; "Phrase"; "Word"; "Morpheme"; "Gloss"]
      else nodeTypes
    else nodeTypes in
  (st,
   [ {| textId := or_else (Some (selectedText st)) None;
        language := or_else (Some (selectedLanguage st)) None;
        nodeTypes := nodeTypes;
        limit := limit_state st |} ]).

Definition handleResetFilters (st : State) : State * list Filters :=
  ({| selectedText := "";
      selectedLanguage := "";
      selectedNodeTypes := [];
      limit_state := resolvedInitialLimit;
      hierarchyLevel := "all" |},
   [ {| textId := None;
        language := None;
        nodeTypes := None;
        limit := resolvedInitialLimit |} ]).

Definition toggleNodeType (nodeType : string) (st : State) : State * list Filters :=
  let newSet := selectedNodeTypes st in
  let newSet :=
    if Set_has newSet nodeType then Set_delete newSet nodeType
    else Set_add newSet nodeType in
  ({| selectedText := selectedText st;
      selectedLanguage := selectedLanguage st;
      selectedNodeTypes := newSet;
      limit_state := limit_state st;
      hierarchyLevel := hierarchyLevel st |},
   []).

(** What the user can do with the panel: the [onChange] of the three
    selects and of the slider, a checkbox, and the two buttons. *)
Inductive Event : Type :=
| ChangeText (value : string)
| ChangeLanguage (value : string)
| ChangeHierarchy (value : string)
| ChangeLimit (value : Z)
| Toggle (nodeType : string)
| Apply
| Reset.

Definition handle (ev : Event) (st : State) : State * list Filters :=
  match ev with
  | ChangeText value =>
      ({| selectedText := value;
          selectedLanguage := selectedLanguage st;
          selectedNodeTypes := selectedNodeTypes st;
          limit_state := limit_state st;
          hierarchyLevel := hierarchyLevel st |}, [])
  | ChangeLanguage value =>
      ({| selectedText := selectedText st;
          selectedLanguage := value;
          selectedNodeTypes := selectedNodeTypes st;
          limit_state := limit_state st;
          hierarchyLevel := hierarchyLevel st |}, [])
  | ChangeHierarchy value =>
      ({| selectedText := selectedText st;
          selectedLanguage := selectedLanguage st;
          selectedNodeTypes := selectedNodeTypes st;
          limit_state := limit_state st;
          hierarchyLevel := value |}, [])
  | ChangeLimit value =>
      ({| selectedText := selectedText st;
          selectedLanguage := selectedLanguage st;
          selectedNodeTypes := selectedNodeTypes st;
          limit_state := value;
          hierarchyLevel := hierarchyLevel st |}, [])
  | Toggle nodeType => toggleNodeType nodeType st
  | Apply => handleApplyFilters st
  | Reset => handleResetFilters st
  end.

(** A session: the state reached and every call of [onFilterChange] so
    far, oldest first. *)
Definition step (acc : State * list Filters) (ev : Event) : State * list Filters :=
  let '(st, emitted) := acc in
  let '(st', more) := handle ev st in
  (st', emitted ++ more).

Definition run (events : list Event) : State * list Filters :=
  foldl step (initial, []) events.

End Component.

End GraphFilters.

(** *** components/DatabaseStatistics.tsx *)

Module DatabaseStatistics.

Section Component.

(** What [response.json()] gives: an object of the [DatabaseStats] shape. *)
Variable DatabaseStats : Type.

(** [Date.prototype.toLocaleTimeString] with the options the component
    passes, which depends on the locale of the browser. *)
Variable toLocaleTimeString : Z -> string.

(** The [Response] of the browser's [fetch]: [ok], and what [json()]
    settles to. *)
Record Response : Type := {
  ok : bool;
  json : Completion DatabaseStats
}.

(** The five state hooks; a [Date] is kept as its [getTime()]. *)
Record State : Type := {
  stats : option DatabaseStats;
  isLoading : bool;
  isRefreshing : bool;
  error : option string;
  lastUpdated : option Z
}.

Definition initial : State :=
  {| stats := None;
     isLoading := true;
     isRefreshing := false;
     error := None;
     lastUpdated := None |}.

Definition setStats (v : option DatabaseStats) : Act State unit :=
  act_set (fun st => {| stats := v;
                        isLoading := isLoading st;
                        isRefreshing := isRefreshing st;
                        error := error st;
                        lastUpdated := lastUpdated st |}).

Definition setIsLoading (v : bool) : Act State unit :=
  act_set (fun st => {| stats := stats st;
                        isLoading := v;
                        isRefreshing := isRefreshing st;
                        error := error st;
                        lastUpdated := lastUpdated st |}).

Definition setIsRefreshing (v : bool) : Act State unit :=
  act_set (fun st => {| stats := stats st;
                        isLoading := isLoading st;
                        isRefreshing := v;
                        error := error st;
                        lastUpdated := lastUpdated st |}).

Definition setError (v : option string) : Act State unit :=
  act_set (fun st => {| stats := stats st;
                        isLoading := isLoading st;
                        isRefreshing := isRefreshing st;
                        error := v;
                        lastUpdated := lastUpdated st |}).

Definition setLastUpdated (v : option Z) : Act State unit :=
  act_set (fun st => {| stats := stats st;
                        isLoading := isLoading st;
                        isRefreshing := isRefreshing st;
                        error := error st;
                        lastUpdated := v |}).

Local Open Scope act_scope.

(** [fetchStats] up to its first [await]. *)
Definition fetchStats_begin (isRefresh : bool) : Act State unit :=
  do! (if isRefresh then setIsRefreshing true else setIsLoading true) in
  setError None.

(** [fetchStats] from its first [await] on: [settled] is what the [fetch]
    settles to and [now] the time at which the data arrive. *)
Definition fetchStats_settle (settled : Completion Response) (now : Z) : Act State unit :=
  act_finally
    (act_try_catch
       (let! response := act_await settled in
        do! (if negb (ok response)
             then act_throw (ThrownError "Failed to fetch statistics")
             else act_ret tt) in
        let! data := act_await (json response) in
        do! setStats (Some data) in
        setLastUpdated (Some now))
       (fun err =>
          setError
            (Some match err with
                  | ThrownError message => message
                  | ThrownOther => "Failed to load statistics"
                  end)))
    (do! setIsLoading false in
     setIsRefreshing false).

Definition fetchStats (isRefresh : bool) (settled : Completion Response) (now : Z)
  : Act State unit :=
  do! fetchStats_begin isRefresh in
  fetchStats_settle settled now.

(** Which of its four returns the component takes. *)
Inductive View : Type :=
| Loading
| ErrorBox (message : string)
| Nothing
| Panel (shown : DatabaseStats) (updated : option Z).

Definition render (st : State) : View :=
  if isLoading st then Loading
  else
    match or_else (error st) None with
    | Some message => ErrorBox message
    | None =>
        match stats st with
        | None => Nothing
        | Some shown => Panel shown (lastUpdated st)
        end
    end.

(** The ways the fetch of the statistics fails, each with the text that
    ends up in [error]: the [fetch] itself rejects, the status is not a
    2xx one, or the body is not JSON. *)
Inductive Fails : Completion Response -> string -> Prop :=
| Fails_fetch_Error message :
    Fails (Abrupt (ThrownError message)) message
| Fails_fetch_other :
    Fails (Abrupt ThrownOther) "Failed to load statistics"
| Fails_status response :
    ok response = false ->
    Fails (Normal response) "Failed to fetch statistics"
| Fails_json_Error response message :
    ok response = true ->
    json response = Abrupt (ThrownError message) ->
    Fails (Normal response) message
| Fails_json_other response :
    ok response = true ->
    json response = Abrupt ThrownOther ->
    Fails (Normal response) "Failed to load statistics".

(** [formatTime(date)], called at time [now]; both in milliseconds. *)
Definition formatTime (now date : Z) : string :=
  let diff := (now - date) / 1000 in
  if diff <? 60 then "Just now"
  else if diff <? 3600 then pretty (diff / 60) +:+ "m ago"
  else toLocaleTimeString date.

End Component.

End DatabaseStatistics.

(** *** components/FileUpload.tsx *)

Module FileUpload.

(** [String.prototype.endsWith]. *)
Definition endsWith (s suffix : string) : bool :=
  let n := String.length s in
  let m := String.length suffix in
  if (m <=? n)%nat then String.eqb (substring (n - m) m s) suffix else false.

(** A [File]: its name and its bytes. *)
Record File : Type := {
  name : string;
  content : list Byte.byte
}.

Inductive UploadStatus : Type := idle | success | error | warning.

Record State : Type := {
  isDragging : bool;
  isUploading : bool;
  uploadProgress : Z;
  selectedFile : option File;
  uploadStatus : UploadStatus;
  statusMessage : string;
  warningMessage : string
}.

Definition initial : State :=
  {| isDragging := false;
     isUploading := false;
     uploadProgress := 0;
     selectedFile := None;
     uploadStatus := idle;
     statusMessage := "";
     warningMessage := "" |}.

Definition setIsDragging (v : bool) (st : State) : State :=
  {| isDragging := v;
     isUploading := isUploading st;
     uploadProgress := uploadProgress st;
     selectedFile := selectedFile st;
     uploadStatus := uploadStatus st;
     statusMessage := statusMessage st;
     warningMessage := warningMessage st |}.

Definition setUploadProgress (v : Z) (st : State) : State :=
  {| isDragging := isDragging st;
     isUploading := isUploading st;
     uploadProgress := v;
     selectedFile := selectedFile st;
     uploadStatus := uploadStatus st;
     statusMessage := statusMessage st;
     warningMessage := warningMessage st |}.

Definition setSelectedFile (v : option File) (st : State) : State :=
  {| isDragging := isDragging st;
     isUploading := isUploading st;
     uploadProgress := uploadProgress st;
     selectedFile := v;
     uploadStatus := uploadStatus st;
     statusMessage := statusMessage st;
     warningMessage := warningMessage st |}.

Definition setUploadStatus (v : UploadStatus) (st : State) : State :=
  {| isDragging := isDragging st;
     isUploading := isUploading st;
     uploadProgress := uploadProgress st;
     selectedFile := selectedFile st;
     uploadStatus := v;
     statusMessage := statusMessage st;
     warningMessage := warningMessage st |}.

Definition setStatusMessage (v : string) (st : State) : State :=
  {| isDragging := isDragging st;
     isUploading := isUploading st;
     uploadProgress := uploadProgress st;
     selectedFile := selectedFile st;
     uploadStatus := uploadStatus st;
     statusMessage := v;
     warningMessage := warningMessage st |}.

Definition setWarningMessage (v : string) (st : State) : State :=
  {| isDragging := isDragging st;
     isUploading := isUploading st;
     uploadProgress := uploadProgress st;
     selectedFile := selectedFile st;
     uploadStatus := uploadStatus st;
     statusMessage := statusMessage st;
     warningMessage := v |}.

Definition handleDragEnter (st : State) : State := setIsDragging true st.

Definition handleDragLeave (st : State) : State := setIsDragging false st.

Definition handleDragOver (st : State) : State := st.

(** [files] is [e.dataTransfer.files]. *)
Definition handleDrop (files : option (list File)) (st : State) : State :=
  let st := setIsDragging false st in
  match files with
  | Some (file :: _) =>
      if (endsWith (name file) ".flextext" || endsWith (name file) ".eaf")%bool then
        setUploadStatus idle (setSelectedFile (Some file) st)
      else
        setStatusMessage "Please upload a .flextext or .eaf file"
          (setUploadStatus error st)
  | _ => st
  end.

(** [files] is [e.target.files]. *)
Definition handleFileSelect (files : option (list File)) (st : State) : State :=
  match files with
  | Some (file :: _) =>
      if (endsWith (name file) ".flextext" || endsWith (name file) ".eaf")%bool then
        setUploadStatus idle (setSelectedFile (Some file) st)
      else
        setStatusMessage "Please upload a .flextext or .eaf file"
          (setUploadStatus error st)
  | _ => st
  end.

Definition handleRemoveFile (st : State) : State :=
  setUploadProgress 0
    (setWarningMessage ""
       (setStatusMessage ""
          (setUploadStatus idle (setSelectedFile None st)))).

(** The parts of [handleUpload] that do not depend on what the server
    answers: the updater the progress timer applies every 200 ms, the
    choice of the endpoint, and the callback of the timer that clears the
    form after an upload. *)
Definition progressTick (prev : Z) : Z :=
  if 90 <=? prev then 90 else prev + 10.

Definition isFlextext (selected : File) : bool := endsWith (name selected) ".flextext".

Definition endpoint (selected : File) : string :=
  if isFlextext selected
  then "/api/v1/linguistic/upload-flextext"
  else "/api/v1/linguistic/upload-elan".

Definition resetAfterUpload (st : State) : State :=
  setWarningMessage ""
    (setUploadProgress 0
       (setUploadStatus idle (setSelectedFile None st))).

(** What happens to the form between uploads. *)
Inductive Event : Type :=
| DragEnter
| DragLeave
| DragOver
| Drop (files : option (list File))
| FileSelect (files : option (list File))
| RemoveFile
| ResetAfterUpload.

Definition handle (st : State) (ev : Event) : State :=
  match ev with
  | DragEnter => handleDragEnter st
  | DragLeave => handleDragLeave st
  | DragOver => handleDragOver st
  | Drop files => handleDrop files st
  | FileSelect files => handleFileSelect files st
  | RemoveFile => handleRemoveFile st
  | ResetAfterUpload => resetAfterUpload st
  end.

Definition run (events : list Event) : State := foldl handle initial events.

End FileUpload.

(** ** The gateway's answer as the browser gets it *)

(** The [Response] the browser's [fetch] resolves to when the gateway has
    answered: [ok] says whether the status is a 2xx one; [parsed] is what
    parsing the body as JSON gives. *)
Definition seen_by_browser {Data : Type} (response : NextResponse)
           (parsed : Completion Data) : DatabaseStatistics.Response Data :=
  {| DatabaseStatistics.ok :=
       ((200 <=? res_status response) && (res_status response <=? 299))%bool;
     DatabaseStatistics.json := parsed |}.

(** ** Sample inputs for the components *)

(** The panel with two node types ticked, in that order. *)
Definition two_types_selected : GraphFilters.State :=
  {| GraphFilters.selectedText := "";
     GraphFilters.selectedLanguage := "";
     GraphFilters.selectedNodeTypes := ["Word"; "Gloss"];
     GraphFilters.limit_state := 200;
     GraphFilters.hierarchyLevel := "all" |}.

(** The statistics panel with statistics fetched at time 1000; the
    statistics themselves are stood for by a number. *)
Definition loaded_statistics : DatabaseStatistics.State Z :=
  {| DatabaseStatistics.stats := Some 42;
     DatabaseStatistics.isLoading := false;
     DatabaseStatistics.isRefreshing := false;
     DatabaseStatistics.error := None;
     DatabaseStatistics.lastUpdated := Some 1000 |}.

(** The gateway's 502 as the browser sees it. *)
Definition bad_gateway : DatabaseStatistics.Response Z :=
  {| DatabaseStatistics.ok := false;
     DatabaseStatistics.json := Abrupt (ThrownError "not read") |}.

(** The form with an ELAN file chosen, and a file the form refuses. *)
Definition elan_file : FileUpload.File :=
  {| FileUpload.name := "story.eaf"; FileUpload.content := [Byte.x3c] |}.

Definition text_file : FileUpload.File :=
  {| FileUpload.name := "notes.txt"; FileUpload.content := [] |}.

Definition elan_chosen : FileUpload.State :=
  FileUpload.run [FileUpload.DragEnter; FileUpload.Drop (Some [elan_file])].

(** * Properties *)

(** ** The handler, one stage after the other *)

Lemma or_literal_join (p : option (list string)) :
  or_literal (option_map (join "/") p) "" = join "/" (default [] p).
Proof.
  destruct p as [segments|]; simpl; [|reflexivity].
  destruct (decide (join "/" segments = "")) as [->|]; reflexivity.
Qed.

Lemma foldl_searchParams_append (pairs : list (string * string)) (url : URL) :
  foldl (fun u '(key, value) => searchParams_append u key value) url pairs
  = {| url_input := url_input url;
       url_location := url_location url;
       url_searchParams := url_searchParams url ++ pairs;
       url_hash := url_hash url |}.
Proof.
  revert url. induction pairs as [|[key value] pairs IH]; intros url; simpl.
  - rewrite app_nil_r. by destruct url.
  - rewrite IH. simpl. by rewrite <- app_assoc.
Qed.

(** The handler in direct style: which stage ends the run, which call was
    logged, and what is answered. *)
Lemma handler_stages rt backend_url request context log :
  handler rt backend_url request context log =
  match URL_failure rt (target backend_url context) with
  | Some e => (Normal (error_envelope backend_url e), log)
  | None =>
      match stream_read request with
      | Some (Abrupt e) => (Normal (error_envelope backend_url e), log)
      | Some (Normal bytes) =>
          let call := outbound rt backend_url request context (body_sent bytes) in
          (Normal (answer rt backend_url (fetch_outcome rt call)), log ++ [call])
      | None =>
          let call := outbound rt backend_url request context None in
          (Normal (answer rt backend_url (fetch_outcome rt call)), log ++ [call])
      end
  end.
Proof.
  unfold handler, try_catch, bind, await, new_URL.
  rewrite or_literal_join. fold (target backend_url context).
  destruct (URL_failure rt (target backend_url context)) as [e|]; [reflexivity|].
  rewrite foldl_searchParams_append. cbn [url_input url_location url_searchParams url_hash].
  fold (stream_read request).
  destruct (stream_read request) as [[bytes|e]|]; [| reflexivity |].
  - unfold body_sent.
    destruct (0 <? Z.of_nat (length bytes)); unfold ret, fetch, outbound, answer; simpl.
    all: destruct (fetch_outcome rt _) as [r|e]; [|reflexivity].
    all: destruct (bk_arrayBuffer r) as [bs|e]; [|reflexivity].
    all: fold (relayed_init r).
    all: destruct (new_NextResponse rt _ _); reflexivity.
  - unfold ret, fetch, outbound, answer; simpl.
    destruct (fetch_outcome rt _) as [r|e]; [|reflexivity].
    destruct (bk_arrayBuffer r) as [bs|e]; [|reflexivity].
    fold (relayed_init r).
    destruct (new_NextResponse rt _ _); reflexivity.
Qed.

(** Closed decidable goals are settled by running their decision
    procedure. *)
Ltac by_decision := apply (bool_decide_unpack _); vm_compute; exact I.

(** ** Header filtering *)

Lemma getForwardHeaders_foldl (request : NextRequest) :
  getForwardHeaders request = foldl forward_one ∅ (req_headers request).
Proof.
  unfold getForwardHeaders. f_equal.
Qed.

Lemma foldl_forward_absent (entries : list (string * string)) (acc : gmap string string)
      (name : string) :
  name ∉ entries.*1 -> foldl forward_one acc entries !! name = acc !! name.
Proof.
  revert acc. induction entries as [|[key value] entries IH]; intros acc Hnot; simpl.
  - reflexivity.
  - rewrite fmap_cons, not_elem_of_cons in Hnot. destruct Hnot as [Hne Hnot]. simpl in Hne.
    rewrite IH by assumption.
    destruct (decide (toLowerCase key ∈ skipHeaders)); [reflexivity|].
    by rewrite lookup_insert_ne.
Qed.

Lemma foldl_forward_origin (entries : list (string * string)) (acc : gmap string string)
      (name value : string) :
  foldl forward_one acc entries !! name = Some value ->
  acc !! name = Some value
  \/ ((name, value) ∈ entries /\ toLowerCase name ∉ skipHeaders).
Proof.
  revert acc. induction entries as [|[key v] entries IH]; intros acc Hlook; simpl in Hlook.
  - by left.
  - apply IH in Hlook as [Hacc|[Hin Hskip]].
    + destruct (decide (toLowerCase key ∈ skipHeaders)) as [|Hkeep]; [by left|].
      destruct (decide (key = name)) as [->|Hne].
      * rewrite lookup_insert_eq in Hacc. injection Hacc as ->.
        right. split; [apply list_elem_of_here | assumption].
      * rewrite lookup_insert_ne in Hacc by assumption. by left.
    + right. split; [by apply list_elem_of_further | assumption].
Qed.

Lemma foldl_forward_kept (entries : list (string * string)) (acc : gmap string string)
      (name value : string) :
  NoDup entries.*1 ->
  (name, value) ∈ entries ->
  toLowerCase name ∉ skipHeaders ->
  foldl forward_one acc entries !! name = Some value.
Proof.
  revert acc. induction entries as [|[key v] entries IH]; intros acc Hnodup Hin Hkeep.
  - by apply elem_of_nil in Hin.
  - rewrite fmap_cons in Hnodup. apply NoDup_cons in Hnodup as [Hfresh Hnodup].
    apply elem_of_cons in Hin as [Heq|Hin].
    + injection Heq as <- <-. simpl.
      rewrite foldl_forward_absent by assumption.
      destruct (decide (toLowerCase name ∈ skipHeaders)); [contradiction|].
      apply lookup_insert_eq.
    + simpl. by apply IH.
Qed.

Lemma last_occurrence (entries : list (string * string)) (name : string) :
  name ∈ entries.*1 ->
  exists before value after,
    entries = before ++ (name, value) :: after /\ name ∉ after.*1.
Proof.
  induction entries as [|[key v] entries IH]; intros Hin.
  - by apply elem_of_nil in Hin.
  - destruct (decide (name ∈ entries.*1)) as [Hlater|Hlast].
    + destruct (IH Hlater) as (before & value & after & -> & Hafter).
      by exists ((key, v) :: before), value, after.
    + rewrite fmap_cons in Hin. apply elem_of_cons in Hin as [->|Hin]; [|contradiction].
      by exists [], v, entries.
Qed.

Lemma foldl_forward_last (before after : list (string * string)) (name value : string) :
  name ∉ after.*1 ->
  toLowerCase name ∉ skipHeaders ->
  foldl forward_one ∅ (before ++ (name, value) :: after) !! name = Some value.
Proof.
  intros Hlast Hkeep. rewrite foldl_app. simpl.
  rewrite foldl_forward_absent by exact Hlast.
  destruct (decide (toLowerCase name ∈ skipHeaders)); [contradiction|].
  apply lookup_insert_eq.
Qed.

(** C2, as the code has it. Whatever headers the request carries, no header
    whose lower-cased name is host, connection, keep-alive,
    transfer-encoding, upgrade or content-length is forwarded, and what is
    forwarded comes from the request. Every header whose lower-cased name is
    none of those six is forwarded under the same name: with the same value
    when no later header of the request has that name, and otherwise with
    the value of the last header of that name. *)
Theorem getForwardHeaders_denies_and_forwards (request : NextRequest) :
  (forall name value : string,
      getForwardHeaders request !! name = Some value ->
      (toLowerCase name ∉
         ({[ "host"; "connection"; "keep-alive"; "transfer-encoding"; "upgrade";
             "content-length" ]} : gset string))
      /\ (name, value) ∈ req_headers request)
  /\ (forall (before after : list (string * string)) (name value : string),
         req_headers request = before ++ (name, value) :: after ->
         name ∉ after.*1 ->
         (toLowerCase name ∉
            ({[ "host"; "connection"; "keep-alive"; "transfer-encoding"; "upgrade";
                "content-length" ]} : gset string)) ->
         getForwardHeaders request !! name = Some value)
  /\ (forall name value : string,
         (name, value) ∈ req_headers request ->
         (toLowerCase name ∉
            ({[ "host"; "connection"; "keep-alive"; "transfer-encoding"; "upgrade";
                "content-length" ]} : gset string)) ->
         exists last : string,
           getForwardHeaders request !! name = Some last
           /\ (name, last) ∈ req_headers request).
Proof.
  rewrite getForwardHeaders_foldl. split; [|split].
  - intros name value Hlook.
    apply foldl_forward_origin in Hlook as [Hempty|[Hin Hkeep]]; [|by split].
    by rewrite lookup_empty in Hempty.
  - intros before after name value -> Hlast Hkeep. by apply foldl_forward_last.
  - intros name value Hin Hkeep.
    destruct (last_occurrence (req_headers request) name)
      as (before & last & after & Hsplit & Hlast).
    { apply list_elem_of_fmap. by exists (name, value). }
    exists last. rewrite Hsplit. split; [by apply foldl_forward_last|].
    apply elem_of_app. right. apply list_elem_of_here.
Qed.

Lemma getForwardHeaders_denies_and_forwards_witness :
  getForwardHeaders
    {| req_method := "POST";
       req_headers := [("authorization", "Bearer t"); ("host", "ui.example.org");
                       ("content-length", "2")];
       req_searchParams := [];
       req_body := None |} !! "authorization" = Some "Bearer t".
Proof.
  apply (proj1 (proj2 (getForwardHeaders_denies_and_forwards _))
           [] [("host", "ui.example.org"); ("content-length", "2")]).
  - reflexivity.
  - by_decision.
  - by_decision.
Defined.

(** Two headers of the same name: the second is forwarded, the first is
    not, although its name is not one of the six. *)
Lemma getForwardHeaders_counterexample :
  ("set-cookie", "a=1") ∈ req_headers two_cookies
  /\ (toLowerCase "set-cookie" ∉ skipHeaders)
  /\ getForwardHeaders two_cookies !! "set-cookie" = Some "b=2"
  /\ getForwardHeaders two_cookies !! "set-cookie" <> Some "a=1".
Proof.
  split; [apply list_elem_of_here|]. split; [by_decision|].
  assert (getForwardHeaders two_cookies !! "set-cookie" = Some "b=2") as ->
      by by_decision.
  split; [reflexivity | discriminate].
Qed.

(** ** The outbound call *)

(** Every call the handler makes is the only one, is built from the request
    as [outbound] says, and determines the answer. *)
Lemma handler_call rt backend_url request context call :
  call ∈ (handler rt backend_url request context []).2 ->
  URL_failure rt (target backend_url context) = None
  /\ handler rt backend_url request context []
     = (Normal (answer rt backend_url (fetch_outcome rt call)), [call])
  /\ ((stream_read request = None /\ call = outbound rt backend_url request context None)
      \/ (exists bytes, stream_read request = Some (Normal bytes)
                        /\ call = outbound rt backend_url request context
                                            (body_sent bytes))).
Proof.
  rewrite handler_stages.
  destruct (URL_failure rt (target backend_url context)) as [e|];
    [intros Hin; by apply elem_of_nil in Hin|].
  destruct (stream_read request) as [[bytes|e]|]; simpl;
    [| intros Hin; by apply elem_of_nil in Hin |].
  - intros Hin. apply list_elem_of_singleton in Hin as ->.
    split; [reflexivity|]. split; [reflexivity|]. right. by exists bytes.
  - intros Hin. apply list_elem_of_singleton in Hin as ->.
    split; [reflexivity|]. split; [reflexivity|]. by left.
Qed.

(** The handler makes its call whenever the URL parses and the inbound body,
    if it is read, can be read. *)
Lemma handler_calls_once rt backend_url request context :
  URL_failure rt (target backend_url context) = None ->
  (forall e, stream_read request <> Some (Abrupt e)) ->
  exists call, (handler rt backend_url request context []).2 = [call].
Proof.
  intros Hurl Hbody. rewrite handler_stages, Hurl.
  destruct (stream_read request) as [[bytes|e]|]; simpl; eauto.
  by destruct (Hbody e).
Qed.

Lemma stream_read_GET_HEAD request :
  req_method request = "GET" \/ req_method request = "HEAD" ->
  stream_read request = None.
Proof. unfold stream_read. by intros [-> | ->]. Qed.

Lemma stream_read_other request :
  req_method request <> "GET" -> req_method request <> "HEAD" ->
  stream_read request = req_body request.
Proof.
  intros Hget Hhead. unfold stream_read.
  apply String.eqb_neq in Hget, Hhead. by rewrite Hget, Hhead.
Qed.

(** C1, as the code has it. The URL of the outbound call is the one the
    URL parser makes of the resolved origin followed by "/api/v1/" and the
    path segments joined by "/" (no segments, or no path at all, gives the
    bare "/api/v1/" root to parse). Its query holds the pairs the parser
    found in that string, followed by the inbound query parameters: same
    keys, same values, duplicates kept, in the inbound order. Where the
    parser leaves the string as it is and finds no query in it, the outbound
    URL is that string and its query is exactly the inbound parameters. *)
Theorem outbound_url_as_parsed rt backend_url request context call :
  call ∈ (handler rt backend_url request context []).2 ->
  (forall segments,
      path context = Some segments ->
      url_input (call_url call) = backend_url +:+ "/api/v1/" +:+ join "/" segments)
  /\ (path context = None \/ path context = Some [] ->
      url_input (call_url call) = backend_url +:+ "/api/v1/")
  /\ url_location (call_url call)
     = parts_location (URL_parts rt (url_input (call_url call)))
  /\ url_searchParams (call_url call)
     = parts_query (URL_parts rt (url_input (call_url call))) ++ req_searchParams request
  /\ url_hash (call_url call) = parts_hash (URL_parts rt (url_input (call_url call)))
  /\ (parts_location (URL_parts rt (url_input (call_url call)))
      = url_input (call_url call) ->
      parts_query (URL_parts rt (url_input (call_url call))) = [] ->
      url_location (call_url call) = url_input (call_url call)
      /\ url_searchParams (call_url call) = req_searchParams request).
Proof.
  intros Hcall. apply handler_call in Hcall as (_ & _ & Hshape).
  assert (call_url call
          = call_url (outbound rt backend_url request context None)) as ->.
  { destruct Hshape as [[_ ->]|(bytes & _ & ->)]; reflexivity. }
  unfold outbound, target. simpl.
  split; [by intros segments ->|]. split; [by intros [-> | ->]|].
  split; [reflexivity|]. split; [reflexivity|]. split; [reflexivity|].
  intros Hsame Hnone. by rewrite Hsame, Hnone.
Qed.

Lemma sample_call_made :
  sample_call ∈ (handler sample_runtime "http://localhost:8000"
                         sample_request sample_context []).2.
Proof. rewrite handler_stages. simpl. apply list_elem_of_here. Qed.

Lemma outbound_url_as_parsed_witness :
  url_location (call_url sample_call) = "http://localhost:8000/api/v1/linguistic/stats"
  /\ url_searchParams (call_url sample_call) = [("tag", "a"); ("tag", "b"); ("q", "")].
Proof.
  destruct (outbound_url_as_parsed sample_runtime "http://localhost:8000"
              sample_request sample_context sample_call sample_call_made)
    as (_ & _ & _ & _ & _ & Hplain).
  apply Hplain; reflexivity.
Defined.

(** A segment with a question mark in it: the outbound URL stops before the
    mark, and what follows it comes first in the outbound query. Segments of
    two dots: the outbound URL has left "/api/v1/". *)
Lemma outbound_url_counterexample :
  (exists call,
      (handler sample_runtime "http://localhost:8000" keyed_get query_in_segment []).2
      = [call]
      /\ url_location (call_url call) = "http://localhost:8000/api/v1/a"
      /\ url_location (call_url call)
         <> "http://localhost:8000" +:+ "/api/v1/" +:+ join "/" ["a?x=1"]
      /\ url_searchParams (call_url call) = [("x", "1"); ("k", "v")]
      /\ url_searchParams (call_url call) <> req_searchParams keyed_get)
  /\ (exists call,
         (handler sample_runtime "http://localhost:8000" keyed_get dots_in_segment []).2
         = [call]
         /\ url_location (call_url call) = "http://localhost:8000/admin"
         /\ url_location (call_url call)
            <> "http://localhost:8000" +:+ "/api/v1/" +:+ join "/" ["../../admin"]).
Proof.
  split; rewrite handler_stages; simpl; eexists; (split; [reflexivity|]); simpl.
  - repeat split; try reflexivity; discriminate.
  - repeat split; try reflexivity; discriminate.
Qed.

(** ** Body forwarding *)

Lemma body_sent_nonempty (bytes : list Byte.byte) :
  bytes <> [] -> body_sent bytes = Some bytes.
Proof. unfold body_sent. by destruct bytes. Qed.

(** C6. The outbound call of a GET or HEAD request carries no body,
    whatever the inbound request carries. For any other method a non-empty
    inbound body is forwarded as the same sequence of bytes, and an inbound
    body of length zero, like an absent one, leaves the call without body. *)
Theorem body_forwarding rt backend_url request context call :
  call ∈ (handler rt backend_url request context []).2 ->
  (req_method request = "GET" \/ req_method request = "HEAD" ->
   call_body call = None)
  /\ (forall bytes,
         req_method request <> "GET" -> req_method request <> "HEAD" ->
         req_body request = Some (Normal bytes) -> bytes <> [] ->
         call_body call = Some bytes)
  /\ (req_body request = Some (Normal []) -> call_body call = None)
  /\ (req_body request = None -> call_body call = None).
Proof.
  intros Hcall. apply handler_call in Hcall as (_ & _ & Hshape).
  repeat split.
  - intros Hmethod. apply stream_read_GET_HEAD in Hmethod.
    destruct Hshape as [[_ ->]|(bytes & Hread & _)]; [reflexivity | congruence].
  - intros bytes Hget Hhead Hbody Hne.
    rewrite <- (stream_read_other request Hget Hhead) in Hbody.
    destruct Hshape as [[Hread _]|(bytes' & Hread & ->)]; [congruence|].
    simpl. rewrite Hread in Hbody. injection Hbody as ->.
    by apply body_sent_nonempty.
  - intros Hbody.
    destruct Hshape as [[_ ->]|(bytes & Hread & ->)]; [reflexivity|].
    unfold stream_read in Hread. rewrite Hbody in Hread.
    destruct (_ && _)%bool; [|discriminate]. by injection Hread as <-.
  - intros Hbody.
    destruct Hshape as [[_ ->]|(bytes & Hread & _)]; [reflexivity|].
    unfold stream_read in Hread. rewrite Hbody in Hread.
    by destruct (_ && _)%bool.
Qed.

Lemma body_forwarding_witness :
  call_body sample_call = Some [Byte.x7b; Byte.x7d].
Proof.
  destruct (body_forwarding sample_runtime "http://localhost:8000"
              sample_request sample_context sample_call sample_call_made)
    as (_ & Hcopy & _).
  apply Hcopy; [discriminate | discriminate | reflexivity | discriminate].
Defined.

(** ** Failure of the outbound call *)

Lemma string_length_append (s1 s2 : string) :
  String.length (s1 +:+ s2) = (String.length s1 + String.length s2)%nat.
Proof. induction s1 as [|c s1 IH]; simpl; [reflexivity | by rewrite IH]. Qed.



Lemma sample_call_refused :
  sample_call ∈ (handler refusing_runtime "http://localhost:8000"
                         sample_request sample_context []).2.
Proof. rewrite handler_stages. simpl. apply list_elem_of_here. Qed.


(** ** The relayed response *)

Lemma or_literal_copied (value : option string) (literal v : string) :
  value = Some v -> v <> "" -> or_literal value literal = v.
Proof. intros -> Hne. unfold or_literal. by destruct (decide (v = "")). Qed.

Lemma or_literal_default (value : option string) (literal : string) :
  value = None \/ value = Some "" -> or_literal value literal = literal.
Proof. by intros [-> | ->]. Qed.

Lemma new_NextResponse_accepts rt body init :
  200 <= init_status init <= 599 ->
  init_status init ∉ [204; 205; 304] ->
  new_NextResponse rt body init
  = Normal {| res_body := body;
              res_status := init_status init;
              res_statusText := init_statusText init;
              res_headers := init_headers init |}.
Proof.
  intros [Hlo Hhi] Hnull. unfold new_NextResponse.
  apply Z.leb_le in Hlo, Hhi. rewrite Hlo, Hhi. simpl.
  replace (null_body_status (init_status init)) with false;
    [by rewrite andb_false_r|].
  symmetry. apply bool_decide_eq_false. apply Z.leb_le in Hlo.
  rewrite !not_elem_of_cons in Hnull. rewrite !not_elem_of_cons.
  destruct Hnull as (? & ? & ? & _). repeat split; try assumption; try lia.
  apply not_elem_of_nil.
Qed.

(** C4, as the code has it. When the outbound call succeeds, the backend's
    body can be read, and the backend's status is one the [Response]
    constructor accepts together with a body (200..599 other than 204, 205
    and 304), the relayed response has the backend's status code and status
    text and the backend's body; its Content-Type is the backend's, or
    application/json when the backend sent none or an empty one; its
    Cache-Control is the backend's, or no-store when the backend sent none
    or an empty one; the three CORS headers are present; and it has no other
    header. *)
Theorem relayed_response rt backend_url request context call r bytes :
  call ∈ (handler rt backend_url request context []).2 ->
  fetch_outcome rt call = Normal r ->
  bk_arrayBuffer r = Normal bytes ->
  200 <= bk_status r <= 599 ->
  bk_status r ∉ [204; 205; 304] ->
  exists content_type cache_control,
    (handler rt backend_url request context []).1
    = Normal {| res_body := Some (BodyBuffer bytes);
                res_status := bk_status r;
                res_statusText := bk_statusText r;
                res_headers :=
                  [ ("Content-Type", content_type);
                    ("Cache-Control", cache_control);
                    ("Access-Control-Allow-Origin", "*");
                    ("Access-Control-Allow-Methods", "GET, POST, PUT, DELETE, OPTIONS");
                    ("Access-Control-Allow-Headers", "Content-Type, Authorization") ] |}
    /\ (forall v, Headers_get (bk_headers r) "Content-Type" = Some v -> v <> "" ->
                  content_type = v)
    /\ (Headers_get (bk_headers r) "Content-Type" = None
        \/ Headers_get (bk_headers r) "Content-Type" = Some "" ->
        content_type = "application/json")
    /\ (forall v, Headers_get (bk_headers r) "Cache-Control" = Some v -> v <> "" ->
                  cache_control = v)
    /\ (Headers_get (bk_headers r) "Cache-Control" = None
        \/ Headers_get (bk_headers r) "Cache-Control" = Some "" ->
        cache_control = "no-store").
Proof.
  intros Hcall Hfetch Hbody Hrange Hnull.
  apply handler_call in Hcall as (_ & Hrun & _).
  rewrite Hrun, Hfetch. simpl. rewrite Hbody.
  rewrite new_NextResponse_accepts by assumption.
  eexists _, _. split; [reflexivity|]. repeat split.
  - intros v. apply or_literal_copied.
  - apply or_literal_default.
  - intros v. apply or_literal_copied.
  - apply or_literal_default.
Qed.

Lemma relayed_response_witness :
  exists content_type cache_control,
    (handler sample_runtime "http://localhost:8000" sample_request sample_context []).1
    = Normal {| res_body := Some (BodyBuffer [Byte.x7b; Byte.x7d]);
                res_status := 201;
                res_statusText := "Created";
                res_headers :=
                  [ ("Content-Type", content_type);
                    ("Cache-Control", cache_control);
                    ("Access-Control-Allow-Origin", "*");
                    ("Access-Control-Allow-Methods", "GET, POST, PUT, DELETE, OPTIONS");
                    ("Access-Control-Allow-Headers", "Content-Type, Authorization") ] |}
    /\ content_type = "application/json"
    /\ cache_control = "no-store".
Proof.
  destruct (relayed_response sample_runtime "http://localhost:8000"
              sample_request sample_context sample_call
              {| bk_status := 201;
                 bk_statusText := "Created";
                 bk_headers := [("content-type", "application/json")];
                 bk_arrayBuffer := Normal [Byte.x7b; Byte.x7d] |}
              [Byte.x7b; Byte.x7d]
              sample_call_made eq_refl eq_refl)
    as (content_type & cache_control & Hrun & Hct & _ & _ & Hcc).
  - simpl. lia.
  - by_decision.
  - exists content_type, cache_control.
    split; [exact Hrun|]. split.
    + apply (Hct "application/json"); [reflexivity | discriminate].
    + apply Hcc. by left.
Defined.

(** An empty Content-Type sent by the backend is not copied: the relayed
    response says application/json. *)
Lemma relayed_content_type_counterexample :
  exists call r response,
    handler blank_type_runtime "http://localhost:8000" plain_get sample_context []
    = (Normal response, [call])
    /\ fetch_outcome blank_type_runtime call = Normal r
    /\ Headers_get (bk_headers r) "Content-Type" = Some ""
    /\ ("Content-Type", "application/json") ∈ res_headers response
    /\ ("Content-Type", "") ∉ res_headers response.
Proof.
  rewrite handler_stages. simpl.
  eexists _, _, _. split; [reflexivity|]. split; [reflexivity|].
  split; [reflexivity|]. simpl. split; [apply list_elem_of_here|].
  by_decision.
Qed.

(** A 204 from the backend is not relayed: the [Response] constructor
    refuses the (empty) [ArrayBuffer] given with it, and the envelope is
    the answer. *)
Example no_content_is_answered_502 :
  (handler no_content_runtime "http://localhost:8000"
           {| req_method := "DELETE"; req_headers := [];
              req_searchParams := []; req_body := None |}
           {| path := Some ["texts"; "7"] |} []).1
  = Normal (error_envelope "http://localhost:8000"
              (ThrownError "Invalid response status code")).
Proof. rewrite handler_stages. reflexivity. Qed.

(** ** Preflight *)

(** C5. An OPTIONS request, whatever its path, is answered 204 with no body
    and with the three CORS headers, PATCH being among the allowed methods,
    and Access-Control-Max-Age: 86400; no outbound call is made. *)
Theorem preflight_answer rt backend_url request context log :
  req_method request = "OPTIONS" ->
  Next.serve rt backend_url request context log
  = (Normal {| res_body := None;
               res_status := 204;
               res_statusText := "";
               res_headers :=
                 [ ("Access-Control-Allow-Origin", "*");
                   ("Access-Control-Allow-Methods",
                    "GET, POST, PUT, DELETE, PATCH, OPTIONS");
                   ("Access-Control-Allow-Headers", "Content-Type, Authorization");
                   ("Access-Control-Max-Age", "86400") ] |},
     log).
Proof.
  intros Hmethod. unfold Next.serve. rewrite Hmethod. reflexivity.
Qed.

Lemma preflight_answer_witness :
  Next.serve refusing_runtime "http://localhost:8000" preflight_request sample_context []
  = (Normal {| res_body := None;
               res_status := 204;
               res_statusText := "";
               res_headers :=
                 [ ("Access-Control-Allow-Origin", "*");
                   ("Access-Control-Allow-Methods",
                    "GET, POST, PUT, DELETE, PATCH, OPTIONS");
                   ("Access-Control-Allow-Headers", "Content-Type, Authorization");
                   ("Access-Control-Max-Age", "86400") ] |},
     []).
Proof.
  exact (preflight_answer refusing_runtime "http://localhost:8000"
           preflight_request sample_context [] eq_refl).
Defined.

(** ** The backend origin *)

Lemma BACKEND_URL_private env v :
  env !! "BACKEND_API_URL" = Some v -> v <> "" -> BACKEND_URL env = v.
Proof.
  intros Hget Hne. unfold BACKEND_URL, or_else. rewrite Hget.
  destruct (decide (v = "")); [contradiction|].
  unfold or_literal. by destruct (decide (v = "")).
Qed.

Lemma BACKEND_URL_skip_private env :
  env !! "BACKEND_API_URL" = None \/ env !! "BACKEND_API_URL" = Some "" ->
  BACKEND_URL env = or_literal (env !! "NEXT_PUBLIC_API_URL") "http://localhost:8000".
Proof. unfold BACKEND_URL, or_else. by intros [-> | ->]. Qed.

Lemma run_snoc env events ev :
  Next.run env (events ++ [ev]) = Next.step (Next.run env events) ev.
Proof. unfold Next.run. by rewrite foldl_app. Qed.

Lemma step_keeps_BACKEND_URL p ev :
  Next.proc_BACKEND_URL (Next.step p ev) = Next.proc_BACKEND_URL p.
Proof.
  destruct ev as [name value|name|rt request context]; simpl; try reflexivity.
  by destruct (Next.serve _ _ _ _ _).
Qed.

Lemma run_keeps_BACKEND_URL env events :
  Next.proc_BACKEND_URL (Next.run env events) = BACKEND_URL env.
Proof.
  induction events as [|ev events IH] using rev_ind.
  - reflexivity.
  - by rewrite run_snoc, step_keeps_BACKEND_URL.
Qed.

(** C7, as the code has it. The resolved origin is the private server-side
    value when that is set and not empty, otherwise the publicly exposed
    value when that is set and not empty, otherwise http://localhost:8000.
    It is resolved when the module is loaded: whatever happens to the
    environment afterwards, every request of the process is served with the
    origin resolved then. *)
Theorem backend_origin_resolution (env : gmap string string) :
  (forall v, env !! "BACKEND_API_URL" = Some v -> v <> "" -> BACKEND_URL env = v)
  /\ (env !! "BACKEND_API_URL" = None \/ env !! "BACKEND_API_URL" = Some "" ->
      forall v, env !! "NEXT_PUBLIC_API_URL" = Some v -> v <> "" -> BACKEND_URL env = v)
  /\ (env !! "BACKEND_API_URL" = None \/ env !! "BACKEND_API_URL" = Some "" ->
      env !! "NEXT_PUBLIC_API_URL" = None \/ env !! "NEXT_PUBLIC_API_URL" = Some "" ->
      BACKEND_URL env = "http://localhost:8000")
  /\ (forall events rt request context,
         let before := Next.run env events in
         let after := Next.step before (Next.Inbound rt request context) in
         Next.proc_BACKEND_URL after = BACKEND_URL env
         /\ (Next.proc_responses after, Next.proc_calls after)
            = (Next.proc_responses before
                 ++ [(Next.serve rt (BACKEND_URL env) request context
                        (Next.proc_calls before)).1],
               (Next.serve rt (BACKEND_URL env) request context
                  (Next.proc_calls before)).2)).
Proof.
  repeat split.
  - apply BACKEND_URL_private.
  - intros Hprivate v Hpublic Hne.
    rewrite BACKEND_URL_skip_private by assumption. by apply or_literal_copied.
  - intros Hprivate Hpublic.
    rewrite BACKEND_URL_skip_private by assumption. by apply or_literal_default.
  - by rewrite step_keeps_BACKEND_URL, run_keeps_BACKEND_URL.
  - simpl. rewrite run_keeps_BACKEND_URL.
    by destruct (Next.serve _ _ _ _ _).
Qed.

Lemma backend_origin_resolution_witness :
  BACKEND_URL {[ "NEXT_PUBLIC_API_URL" := "http://10.0.0.5:8000" ]}
  = "http://10.0.0.5:8000".
Proof.
  apply (proj1 (proj2 (backend_origin_resolution
                         {[ "NEXT_PUBLIC_API_URL" := "http://10.0.0.5:8000" ]}))).
  - left. by_decision.
  - by_decision.
  - discriminate.
Defined.

(** A private value that is set, but empty, is passed over. *)
Lemma backend_origin_counterexample :
  ({[ "BACKEND_API_URL" := ""; "NEXT_PUBLIC_API_URL" := "http://10.0.0.5:8000" ]}
     : gmap string string) !! "BACKEND_API_URL" = Some ""
  /\ BACKEND_URL {[ "BACKEND_API_URL" := "";
                    "NEXT_PUBLIC_API_URL" := "http://10.0.0.5:8000" ]}
     = "http://10.0.0.5:8000"
  /\ BACKEND_URL {[ "BACKEND_API_URL" := "";
                    "NEXT_PUBLIC_API_URL" := "http://10.0.0.5:8000" ]}
     <> "".
Proof.
  split; [by_decision|].
  assert (BACKEND_URL {[ "BACKEND_API_URL" := "";
                         "NEXT_PUBLIC_API_URL" := "http://10.0.0.5:8000" ]}
          = "http://10.0.0.5:8000") as ->.
  { rewrite BACKEND_URL_skip_private by (right; by_decision).
    apply or_literal_copied; [by_decision | discriminate]. }
  split; [reflexivity | discriminate].
Qed.

(** ** Errors *)

Lemma new_NextResponse_Normal rt body init response :
  new_NextResponse rt body init = Normal response -> res_body response = body.
Proof.
  unfold new_NextResponse.
  destruct (negb _); [discriminate|].
  destruct (_ && _)%bool; [discriminate|].
  by intros [= <-].
Qed.

Lemma Throws_caught rt backend_url request context e :
  Throws rt backend_url request context e ->
  (handler rt backend_url request context []).1 = Normal (error_envelope backend_url e).
Proof.
  intros [e' Hurl | e' Hurl Hread | call e' Hcall Hfetch
          | call r e' Hcall Hfetch Hbody | call r bytes e' Hcall Hfetch Hbody Hnew].
  - by rewrite handler_stages, Hurl.
  - by rewrite handler_stages, Hurl, Hread.
  - apply handler_call in Hcall as (_ & -> & _). by rewrite Hfetch.
  - apply handler_call in Hcall as (_ & -> & _). rewrite Hfetch. simpl. by rewrite Hbody.
  - apply handler_call in Hcall as (_ & -> & _). rewrite Hfetch. simpl.
    by rewrite Hbody, Hnew.
Qed.

(** Either a step throws and the envelope is the answer, or the backend's
    response is relayed with its own body. *)
Lemma handler_cases rt backend_url request context :
  (exists e, Throws rt backend_url request context e)
  \/ (exists response bytes,
         (handler rt backend_url request context []).1 = Normal response
         /\ res_body response = Some (BodyBuffer bytes)).
Proof.
  destruct (URL_failure rt (target backend_url context)) as [e|] eqn:Hurl;
    [left; exists e; by constructor|].
  destruct (stream_read request) as [[bytes|e]|] eqn:Hread;
    [| left; exists e; by apply Throws_request_body |].
  all: pose proof (handler_stages rt backend_url request context []) as Hrun;
    rewrite Hurl, Hread in Hrun; simpl in Hrun.
  all: match type of Hrun with _ = (_, [?c]) => set (call := c) in * end.
  all: assert (call ∈ (handler rt backend_url request context []).2) as Hcall
      by (rewrite Hrun; apply list_elem_of_here).
  all: destruct (fetch_outcome rt call) as [r|e] eqn:Hfetch;
    [| left; exists e; by apply (Throws_fetch _ _ _ _ call)].
  all: destruct (bk_arrayBuffer r) as [bs|e] eqn:Hbody;
    [| left; exists e; by apply (Throws_response_body _ _ _ _ call r)].
  all: destruct (new_NextResponse rt (Some (BodyBuffer bs)) (relayed_init r))
    as [response|e] eqn:Hnew;
    [| left; exists e; by apply (Throws_Response _ _ _ _ call r bs)].
  all: right; exists response, bs; rewrite Hrun; simpl; rewrite Hbody, Hnew.
  all: split; [reflexivity | by apply new_NextResponse_Normal in Hnew].
Qed.

(** C8, as the code has it. The handler always answers, and its answer is
    the 502 envelope exactly when one of its steps throws: building the
    outbound URL, reading the inbound body, the outbound call, reading the
    backend's body, or building the relayed response. A failed outbound
    call, in particular, always gives the envelope. *)
Theorem envelope_iff_a_step_throws rt backend_url request context :
  exists response,
    (handler rt backend_url request context []).1 = Normal response
    /\ ((exists e, response = error_envelope backend_url e)
        <-> (exists e, Throws rt backend_url request context e))
    /\ (forall call e,
           call ∈ (handler rt backend_url request context []).2 ->
           fetch_outcome rt call = Abrupt e ->
           response = error_envelope backend_url e).
Proof.
  destruct (handler_cases rt backend_url request context)
    as [[e Hthrows] | (response & bytes & Hrun & Hbody)].
  - exists (error_envelope backend_url e).
    split; [by apply Throws_caught|]. split.
    + split; intros _; by exists e.
    + intros call e' Hcall Hfetch.
      pose proof (Throws_caught _ _ _ _ _ (Throws_fetch _ _ _ _ call e' Hcall Hfetch))
        as Hrun'.
      pose proof (Throws_caught _ _ _ _ _ Hthrows) as Hrun.
      congruence.
  - exists response. split; [assumption|]. split.
    + split.
      * intros [e ->]. discriminate.
      * intros [e Hthrows]. apply Throws_caught in Hthrows.
        rewrite Hrun in Hthrows. injection Hthrows as ->. discriminate.
    + intros call e Hcall Hfetch.
      pose proof (Throws_caught _ _ _ _ _ (Throws_fetch _ _ _ _ call e Hcall Hfetch))
        as Hrun'.
      congruence.
Qed.

Lemma envelope_iff_a_step_throws_witness :
  exists response,
    (handler refusing_runtime "http://localhost:8000"
             sample_request sample_context []).1 = Normal response
    /\ response = error_envelope "http://localhost:8000" (ThrownError "fetch failed").
Proof.
  destruct (envelope_iff_a_step_throws refusing_runtime "http://localhost:8000"
              sample_request sample_context) as (response & Hrun & _ & Hfetch).
  exists response. split; [exact Hrun|].
  exact (Hfetch sample_call (ThrownError "fetch failed") sample_call_refused eq_refl).
Defined.

(** The envelope is the answer to the aborted upload although no outbound
    call was made, let alone failed, and the backend answers every call. *)
Lemma envelope_without_transport_failure_counterexample :
  handler sample_runtime "http://localhost:8000" aborted_upload sample_context []
  = (Normal {| res_body :=
                 Some (BodyJSON [ ("error", "Backend connection failed");
                                  ("message", "aborted");
                                  ("backend_url", "http://localhost:8000") ]);
               res_status := 502;
               res_statusText := "";
               res_headers := [("content-type", "application/json")] |},
     [])
  /\ fetch_outcome sample_runtime
     = (fun _ => Normal {| bk_status := 201;
                           bk_statusText := "Created";
                           bk_headers := [("content-type", "application/json")];
                           bk_arrayBuffer := Normal [Byte.x7b; Byte.x7d] |}).
Proof. split; [by rewrite handler_stages | reflexivity]. Qed.

(** C10. The handler never lets an exception out: it always completes
    normally with a response. A failure of any step - building the URL,
    reading the inbound body, the outbound call, reading the backend's body
    - is answered by the 502 envelope, whose [message] is the message of
    the thrown Error, or "Unknown error" when what was thrown is not an
    Error. *)
Theorem handler_never_throws rt backend_url request context :
  (forall log, exists response calls,
      handler rt backend_url request context log = (Normal response, calls))
  /\ (forall e,
         URL_failure rt (target backend_url context) = Some e ->
         (handler rt backend_url request context []).1
         = Normal (error_envelope backend_url e))
  /\ (forall e,
         URL_failure rt (target backend_url context) = None ->
         req_method request <> "GET" -> req_method request <> "HEAD" ->
         req_body request = Some (Abrupt e) ->
         (handler rt backend_url request context []).1
         = Normal (error_envelope backend_url e))
  /\ (forall call e,
         call ∈ (handler rt backend_url request context []).2 ->
         fetch_outcome rt call = Abrupt e ->
         (handler rt backend_url request context []).1
         = Normal (error_envelope backend_url e))
  /\ (forall call r e,
         call ∈ (handler rt backend_url request context []).2 ->
         fetch_outcome rt call = Normal r ->
         bk_arrayBuffer r = Abrupt e ->
         (handler rt backend_url request context []).1
         = Normal (error_envelope backend_url e))
  /\ (forall e,
         error_envelope backend_url e
         = {| res_body :=
                Some (BodyJSON
                        [ ("error", "Backend connection failed");
                          ("message",
                           match e with
                           | ThrownError message => message
                           | ThrownOther => "Unknown error"
                           end);
                          ("backend_url", backend_url) ]);
              res_status := 502;
              res_statusText := "";
              res_headers := [("content-type", "application/json")] |}).
Proof.
  split; [|split; [|split; [|split; [|split]]]].
  - intros log. rewrite handler_stages.
    destruct (URL_failure rt _); [eauto|].
    destruct (stream_read request) as [[bytes|e]|]; simpl; eauto.
  - intros e Hurl. apply Throws_caught. by constructor.
  - intros e Hurl Hget Hhead Hbody. apply Throws_caught.
    apply Throws_request_body; [assumption|]. by rewrite stream_read_other.
  - intros call e Hcall Hfetch. apply Throws_caught. by apply (Throws_fetch _ _ _ _ call).
  - intros call r e Hcall Hfetch Hbody. apply Throws_caught.
    by apply (Throws_response_body _ _ _ _ call r).
  - by intros [message|].
Qed.

Lemma handler_never_throws_witness :
  (handler sample_runtime "http://localhost:8000" aborted_upload sample_context []).1
  = Normal (error_envelope "http://localhost:8000" (ThrownError "aborted")).
Proof.
  apply (proj1 (proj2 (proj2 (handler_never_throws sample_runtime "http://localhost:8000"
                                aborted_upload sample_context))));
    [reflexivity | discriminate | discriminate | reflexivity].
Defined.

(** ** Methods *)

Lemma serve_routed rt backend_url request context h :
  Next.route rt backend_url (req_method request) = Some h ->
  Next.serve rt backend_url request context = h request context.
Proof. intros Hroute. unfold Next.serve. by rewrite Hroute. Qed.

(** C9. Every request whose method is GET, HEAD, POST, PUT, PATCH, DELETE
    or OPTIONS is handled. Each of them other than OPTIONS goes to the
    handler, which calls the backend with the method of the request; that
    includes HEAD, for which the module has no export of its own and which
    the GET export answers. *)
Theorem methods_served rt backend_url method :
  method ∈ ["GET"; "HEAD"; "POST"; "PUT"; "PATCH"; "DELETE"; "OPTIONS"] ->
  is_Some (Next.route rt backend_url method)
  /\ (method <> "OPTIONS" ->
      Next.route rt backend_url method = Some (handler rt backend_url)
      /\ forall request context,
          req_method request = method ->
          Next.serve rt backend_url request context
          = handler rt backend_url request context
          /\ (forall call,
                 call ∈ (Next.serve rt backend_url request context []).2 ->
                 call_method call = method)
          /\ (URL_failure rt (target backend_url context) = None ->
              (forall e, req_body request <> Some (Abrupt e)) ->
              exists call,
                (Next.serve rt backend_url request context []).2 = [call]
                /\ call_method call = method))
  /\ Next.exports rt backend_url "HEAD" = None
  /\ Next.route rt backend_url "HEAD" = Some (handler rt backend_url).
Proof.
  intros Hmethod.
  assert (method = "OPTIONS" \/ Next.route rt backend_url method = Some (handler rt backend_url))
    as Hroute.
  { rewrite !elem_of_cons in Hmethod.
    destruct Hmethod as [->|[->|[->|[->|[->|[->|[->|Hnil]]]]]]];
      [right|right|right|right|right|right|left|]; try reflexivity.
    by apply elem_of_nil in Hnil. }
  split; [|split; [|split; reflexivity]].
  - destruct Hroute as [-> | ->]; by eexists.
  - intros Hne. destruct Hroute as [->|Hroute]; [contradiction|].
    split; [assumption|]. intros request context <-.
    rewrite (serve_routed _ _ _ _ _ Hroute).
    split; [reflexivity|]. split.
    + intros call Hcall. apply handler_call in Hcall as (_ & _ & Hshape).
      destruct Hshape as [[_ ->]|(bytes & _ & ->)]; reflexivity.
    + intros Hurl Hbody.
      destruct (handler_calls_once rt backend_url request context Hurl) as [call Hrun].
      { intros e Hread. unfold stream_read in Hread.
        destruct (_ && _)%bool; [by apply (Hbody e) | discriminate]. }
      exists call. split; [assumption|].
      assert (call ∈ (handler rt backend_url request context []).2) as Hcall
          by (rewrite Hrun; apply list_elem_of_here).
      apply handler_call in Hcall as (_ & _ & Hshape).
      destruct Hshape as [[_ ->]|(bytes & _ & ->)]; reflexivity.
Qed.

Lemma methods_served_witness :
  exists call,
    (Next.serve sample_runtime "http://localhost:8000" head_request sample_context []).2
    = [call]
    /\ call_method call = "HEAD".
Proof.
  destruct (methods_served sample_runtime "http://localhost:8000" "HEAD")
    as (_ & Hrelay & _).
  - by_decision.
  - destruct Hrelay as [_ Hrelay]; [discriminate|].
    destruct (Hrelay head_request sample_context eq_refl) as (_ & _ & Hcall).
    apply Hcall; [reflexivity | discriminate].
Defined.

(** * Further properties of the gateway *)

(** X1. The handler keeps nothing from one request to the next and never
    retries: whatever calls were made before, its answer is the same, the
    earlier calls stay as they were, and at most one call is added. *)
Theorem handler_one_call_no_memory rt backend_url request context log :
  handler rt backend_url request context log
  = ((handler rt backend_url request context []).1,
     log ++ (handler rt backend_url request context []).2)
  /\ (length (handler rt backend_url request context []).2 <= 1)%nat.
Proof.
  rewrite !handler_stages.
  destruct (URL_failure rt _); [by rewrite app_nil_r; split; [|simpl; lia]|].
  destruct (stream_read request) as [[bytes|e]|]; simpl;
    rewrite ?app_nil_r; split; try reflexivity; lia.
Qed.

(** X2. A GET or HEAD request never has its body read: the handler does the
    same whatever body the request carries, were it one that cannot be
    read. *)
Theorem get_head_body_untouched rt backend_url request context log body body' :
  req_method request = "GET" \/ req_method request = "HEAD" ->
  handler rt backend_url (with_body request body) context log
  = handler rt backend_url (with_body request body') context log.
Proof.
  intros Hmethod. rewrite !handler_stages.
  rewrite !stream_read_GET_HEAD by exact Hmethod. reflexivity.
Qed.

Lemma get_head_body_untouched_witness :
  handler sample_runtime "http://localhost:8000"
          (with_body plain_get (Some (Abrupt (ThrownError "aborted")))) sample_context []
  = handler sample_runtime "http://localhost:8000"
            (with_body plain_get None) sample_context [].
Proof.
  apply (get_head_body_untouched sample_runtime "http://localhost:8000"
           plain_get sample_context []).
  left. reflexivity.
Defined.

(** X3. When a header name occurs more than once in the request, the value
    forwarded under that name is the one of its last occurrence. *)
Theorem getForwardHeaders_last_wins (request : NextRequest)
        (before after : list (string * string)) (name value : string) :
  req_headers request = before ++ (name, value) :: after ->
  name ∉ after.*1 ->
  toLowerCase name ∉ skipHeaders ->
  getForwardHeaders request !! name = Some value.
Proof.
  intros Hsplit Hlast Hkeep.
  rewrite getForwardHeaders_foldl, Hsplit, foldl_app. simpl.
  rewrite foldl_forward_absent by exact Hlast.
  destruct (decide (toLowerCase name ∈ skipHeaders)); [contradiction|].
  apply lookup_insert_eq.
Qed.

Lemma getForwardHeaders_last_wins_witness :
  getForwardHeaders
    (with_headers plain_get [("set-cookie", "a=1"); ("accept", "*/*"); ("set-cookie", "b=2")])
  !! "set-cookie" = Some "b=2".
Proof.
  apply (getForwardHeaders_last_wins _ [("set-cookie", "a=1"); ("accept", "*/*")] []).
  - reflexivity.
  - by_decision.
  - by_decision.
Defined.

(** X4. Filtering is idempotent: a request that carries exactly the headers
    already forwarded has all of them forwarded again, unchanged. *)
Theorem getForwardHeaders_idempotent (request : NextRequest) :
  getForwardHeaders
    (with_headers request (map_to_list (getForwardHeaders request)))
  = getForwardHeaders request.
Proof.
  apply map_eq. intros name.
  rewrite (getForwardHeaders_foldl (with_headers _ _)). simpl.
  destruct (getForwardHeaders request !! name) as [value|] eqn:Hlook.
  - apply foldl_forward_kept.
    + apply NoDup_fst_map_to_list.
    + by apply elem_of_map_to_list.
    + rewrite getForwardHeaders_foldl in Hlook.
      apply foldl_forward_origin in Hlook as [Hempty|[_ Hkeep]]; [|exact Hkeep].
      by rewrite lookup_empty in Hempty.
  - destruct (foldl _ _ _ !! name) as [value|] eqn:Hagain; [|reflexivity].
    apply foldl_forward_origin in Hagain as [Hempty|[Hin _]].
    + by rewrite lookup_empty in Hempty.
    + apply elem_of_map_to_list in Hin. congruence.
Qed.

(** X5. A backend status that the [Response] constructor does not accept
    with a body - below 200, above 599, or 204, 205, 304 - is not relayed:
    the backend's body is dropped and the 502 envelope is the answer, its
    message being the constructor's. *)
Theorem unrelayable_status_is_answered_502 rt backend_url request context call r bytes :
  call ∈ (handler rt backend_url request context []).2 ->
  fetch_outcome rt call = Normal r ->
  bk_arrayBuffer r = Normal bytes ->
  bk_status r < 200 \/ 599 < bk_status r \/ bk_status r ∈ [204; 205; 304] ->
  (handler rt backend_url request context []).1
  = Normal (error_envelope backend_url
              (ThrownError (Response_status_message rt (bk_status r)))).
Proof.
  intros Hcall Hfetch Hbody Hstatus.
  apply Throws_caught. apply (Throws_Response _ _ _ _ call r bytes); try assumption.
  unfold new_NextResponse, relayed_init. simpl.
  destruct (negb _) eqn:Hrange; [reflexivity|].
  apply negb_false_iff, andb_true_iff in Hrange as [Hlo Hhi].
  apply Z.leb_le in Hlo, Hhi.
  destruct Hstatus as [Hlt|[Hgt|Hnull]]; [lia | lia |].
  replace (null_body_status (bk_status r)) with true; [reflexivity|].
  symmetry. apply bool_decide_eq_true.
  rewrite !elem_of_cons in Hnull. rewrite !elem_of_cons.
  destruct Hnull as [->|[->|[->|Hnil]]]; [auto 10..|].
  by apply elem_of_nil in Hnil.
Qed.

Lemma unrelayable_status_is_answered_502_witness :
  (handler no_content_runtime "http://localhost:8000" plain_get sample_context []).1
  = Normal (error_envelope "http://localhost:8000"
              (ThrownError "Invalid response status code")).
Proof.
  apply (unrelayable_status_is_answered_502 no_content_runtime "http://localhost:8000"
           plain_get sample_context
           (outbound no_content_runtime "http://localhost:8000" plain_get sample_context None)
           {| bk_status := 204;
              bk_statusText := "No Content";
              bk_headers := [];
              bk_arrayBuffer := Normal [] |}
           []).
  - rewrite handler_stages. simpl. apply list_elem_of_here.
  - reflexivity.
  - reflexivity.
  - right. right. by_decision.
Defined.

(** X6. The resolved origin is never the empty string, whatever the
    environment holds. *)
Theorem BACKEND_URL_not_empty (env : gmap string string) : BACKEND_URL env <> "".
Proof.
  unfold BACKEND_URL, or_else, or_literal.
  destruct (env !! "BACKEND_API_URL") as [private|];
    [destruct (decide (private = "")) as [->|Hprivate]|].
  2: { by destruct (decide (private = "")). }
  all: destruct (env !! "NEXT_PUBLIC_API_URL") as [public|]; [|discriminate].
  all: by destruct (decide (public = "")).
Qed.

Lemma handler_answers rt backend_url request context log :
  exists response calls,
    handler rt backend_url request context log = (Normal response, log ++ calls)
    /\ (length calls <= 1)%nat.
Proof.
  rewrite handler_stages.
  destruct (URL_failure rt _);
    [eexists _, []; rewrite app_nil_r; split; [reflexivity | simpl; lia]|].
  destruct (stream_read request) as [[bytes|e]|]; simpl.
  - eexists _, [_]. split; [reflexivity | simpl; lia].
  - eexists _, []. rewrite app_nil_r. split; [reflexivity | simpl; lia].
  - eexists _, [_]. split; [reflexivity | simpl; lia].
Qed.

Lemma serve_answers rt backend_url request context log :
  exists response calls,
    Next.serve rt backend_url request context log = (Normal response, log ++ calls)
    /\ (length calls <= 1)%nat.
Proof.
  assert (exists response calls,
             OPTIONS rt request context log = (Normal response, log ++ calls)
             /\ (length calls <= 1)%nat) as Hoptions.
  { eexists _, []. rewrite app_nil_r. split; [reflexivity | simpl; lia]. }
  assert (exists response calls,
             (if bool_decide (req_method request ∈ Next.HTTP_METHODS)
              then ret Next.method_not_allowed else ret Next.bad_request) log
             = (Normal response, log ++ calls)
             /\ (length calls <= 1)%nat) as Hrefused.
  { destruct (bool_decide _); eexists _, []; rewrite app_nil_r;
      (split; [reflexivity | simpl; lia]). }
  pose proof (handler_answers rt backend_url request context log) as Hhandler.
  unfold Next.serve, Next.route, Next.exports.
  repeat case_decide; assumption.
Qed.

Lemma inbound_count_snoc events ev :
  inbound_count (events ++ [ev])
  = (inbound_count events
     + match ev with Next.Inbound _ _ _ => 1 | _ => 0 end)%nat.
Proof.
  unfold inbound_count. rewrite List.filter_app, length_app.
  by destruct ev.
Qed.

(** X7. In a running process every request gets its response, none of them
    an exception let out, and no more outbound calls are made than requests
    were received - whatever happens to the environment in between. *)
Theorem process_answers_every_request (env : gmap string string)
        (events : list Next.Event) :
  length (Next.proc_responses (Next.run env events)) = inbound_count events
  /\ Forall completed_normally (Next.proc_responses (Next.run env events))
  /\ (length (Next.proc_calls (Next.run env events)) <= inbound_count events)%nat.
Proof.
  induction events as [|ev events (Hcount & Hnormal & Hcalls)] using rev_ind.
  - repeat split; [constructor | simpl; lia].
  - rewrite run_snoc, inbound_count_snoc.
    destruct ev as [name value|name|rt request context]; simpl.
    + rewrite Nat.add_0_r. by repeat split.
    + rewrite Nat.add_0_r. by repeat split.
    + destruct (serve_answers rt (Next.proc_BACKEND_URL (Next.run env events))
                  request context (Next.proc_calls (Next.run env events)))
        as (response & calls & -> & Hone).
      simpl. rewrite !length_app. simpl. repeat split.
      * lia.
      * apply Forall_app. split; [assumption|]. by constructor.
      * lia.
Qed.

(** * The filter panel *)

Lemma Set_has_true (s : list string) (x : string) :
  GraphFilters.Set_has s x = true <-> x ∈ s.
Proof. unfold GraphFilters.Set_has. apply bool_decide_eq_true. Qed.

Lemma Set_has_false (s : list string) (x : string) :
  GraphFilters.Set_has s x = false <-> x ∉ s.
Proof. unfold GraphFilters.Set_has. apply bool_decide_eq_false. Qed.

Lemma toggled_selection (nodeType : string) (st : GraphFilters.State) :
  GraphFilters.selectedNodeTypes (GraphFilters.toggleNodeType nodeType st).1
  = if GraphFilters.Set_has (GraphFilters.selectedNodeTypes st) nodeType
    then filter (fun y => y <> nodeType) (GraphFilters.selectedNodeTypes st)
    else GraphFilters.selectedNodeTypes st ++ [nodeType].
Proof.
  unfold GraphFilters.toggleNodeType, GraphFilters.Set_add, GraphFilters.Set_delete. simpl.
  destruct (GraphFilters.Set_has _ _) eqn:Hhas; reflexivity.
Qed.

Lemma toggled_selection_spec (nodeType : string) (st : GraphFilters.State) :
  NoDup (GraphFilters.selectedNodeTypes st) ->
  let st' := (GraphFilters.toggleNodeType nodeType st).1 in
  NoDup (GraphFilters.selectedNodeTypes st')
  /\ (nodeType ∈ GraphFilters.selectedNodeTypes st'
      <-> nodeType ∉ GraphFilters.selectedNodeTypes st)
  /\ (forall other, other <> nodeType ->
         other ∈ GraphFilters.selectedNodeTypes st'
         <-> other ∈ GraphFilters.selectedNodeTypes st).
Proof.
  intros Hnodup st'. subst st'. rewrite toggled_selection.
  destruct (GraphFilters.Set_has _ _) eqn:Hhas.
  - apply Set_has_true in Hhas. repeat split.
    + by apply NoDup_filter.
    + intros Hin. apply list_elem_of_filter in Hin as [Hne _]. by destruct Hne.
    + intros Hnot. contradiction.
    + intros Hin. by apply list_elem_of_filter in Hin as [_ Hin].
    + intros Hin. by apply list_elem_of_filter.
  - apply Set_has_false in Hhas. repeat split.
    + apply NoDup_app. repeat split; [assumption | | apply NoDup_singleton].
      intros x Hx Hx'. apply list_elem_of_singleton in Hx' as ->. contradiction.
    + intros _. assumption.
    + intros _. apply elem_of_app. right. by apply list_elem_of_singleton.
    + intros Hin. apply elem_of_app in Hin as [Hin|Hin]; [assumption|].
      apply list_elem_of_singleton in Hin. contradiction.
    + intros Hin. apply elem_of_app. by left.
Qed.

(** X8. Ticking a node type changes the selection by that type alone: a
    selected type is taken out, an unselected one is put in, every other
    type stays as it was, and no type ever comes to be selected twice.
    Nothing else of the state changes and no filter is emitted. *)
Theorem toggleNodeType_flips_one (nodeType : string) (st : GraphFilters.State) :
  NoDup (GraphFilters.selectedNodeTypes st) ->
  let st' := (GraphFilters.toggleNodeType nodeType st).1 in
  NoDup (GraphFilters.selectedNodeTypes st')
  /\ (nodeType ∈ GraphFilters.selectedNodeTypes st'
      <-> nodeType ∉ GraphFilters.selectedNodeTypes st)
  /\ (forall other, other <> nodeType ->
         other ∈ GraphFilters.selectedNodeTypes st'
         <-> other ∈ GraphFilters.selectedNodeTypes st)
  /\ GraphFilters.selectedText st' = GraphFilters.selectedText st
  /\ GraphFilters.selectedLanguage st' = GraphFilters.selectedLanguage st
  /\ GraphFilters.limit_state st' = GraphFilters.limit_state st
  /\ GraphFilters.hierarchyLevel st' = GraphFilters.hierarchyLevel st
  /\ (GraphFilters.toggleNodeType nodeType st).2 = [].
Proof.
  intros Hnodup st'.
  destruct (toggled_selection_spec nodeType st Hnodup) as (Hnodup' & Hflip & Hother).
  split; [exact Hnodup'|]. split; [exact Hflip|]. split; [exact Hother|].
  by repeat split.
Qed.

Lemma toggleNodeType_flips_one_witness :
  "Word" ∉ GraphFilters.selectedNodeTypes
             (GraphFilters.toggleNodeType "Word" two_types_selected).1
  /\ "Gloss" ∈ GraphFilters.selectedNodeTypes
                 (GraphFilters.toggleNodeType "Word" two_types_selected).1.
Proof.
  destruct (toggleNodeType_flips_one "Word" two_types_selected)
    as (_ & Hflip & Hother & _).
  - by_decision.
  - split.
    + intros Hin. apply Hflip in Hin. apply Hin. by_decision.
    + apply Hother; [discriminate | by_decision].
Defined.

(** X9. Ticking the same node type twice gives back the same selection: the
    same types are selected, and when the type was not selected to begin
    with the whole state is exactly what it was. *)
Theorem toggleNodeType_twice (nodeType : string) (st : GraphFilters.State) :
  NoDup (GraphFilters.selectedNodeTypes st) ->
  let st'' :=
    (GraphFilters.toggleNodeType nodeType
       (GraphFilters.toggleNodeType nodeType st).1).1 in
  GraphFilters.selectedNodeTypes st'' ≡ₚ GraphFilters.selectedNodeTypes st
  /\ (nodeType ∉ GraphFilters.selectedNodeTypes st -> st'' = st).
Proof.
  intros Hnodup st''. subst st''.
  destruct (toggled_selection_spec nodeType st Hnodup)
    as (Hnodup' & Hflip & Hother).
  destruct (toggled_selection_spec nodeType _ Hnodup')
    as (Hnodup'' & Hflip' & Hother').
  split.
  - apply NoDup_Permutation; [assumption | assumption |].
    intros x. destruct (decide (x = nodeType)) as [->|Hne].
    + rewrite Hflip', Hflip.
      destruct (decide (nodeType ∈ GraphFilters.selectedNodeTypes st)); tauto.
    + by rewrite Hother', Hother.
  - intros Habsent. clear -Habsent.
    destruct st as [text lang selection lim level]. simpl in *.
    assert (filter (fun y => y <> nodeType) selection = selection) as Hsame.
    { induction selection as [|x l IH]; [reflexivity|].
      apply not_elem_of_cons in Habsent as [Hne Habsent].
      rewrite filter_cons_True by congruence. by rewrite IH. }
    apply Set_has_false in Habsent.
    unfold GraphFilters.toggleNodeType, GraphFilters.Set_add. simpl.
    rewrite Habsent. simpl.
    assert (GraphFilters.Set_has (selection ++ [nodeType]) nodeType = true) as ->.
    { apply Set_has_true, elem_of_app. right. by apply list_elem_of_singleton. }
    unfold GraphFilters.Set_delete.
    rewrite filter_app, Hsame. simpl.
    rewrite filter_cons_False, filter_nil by (intros Hne; by apply Hne).
    by rewrite app_nil_r.
Qed.

Lemma toggleNodeType_twice_witness :
  (GraphFilters.toggleNodeType "Phrase"
     (GraphFilters.toggleNodeType "Phrase" two_types_selected).1).1
  = two_types_selected.
Proof.
  apply (proj2 (toggleNodeType_twice "Phrase" two_types_selected
                  ltac:(by_decision))).
  by_decision.
Defined.

Lemma or_else_not_empty (s : string) : or_else (Some s) None <> Some "".
Proof. unfold or_else. destruct (decide (s = "")); congruence. Qed.

(** What every emitted filter satisfies. *)
Lemma applied_filters_well_formed (st : GraphFilters.State) (f : GraphFilters.Filters) :
  NoDup (GraphFilters.selectedNodeTypes st) ->
  f ∈ (GraphFilters.handleApplyFilters st).2 ->
  GraphFilters.nodeTypes f <> Some []
  /\ (forall types, GraphFilters.nodeTypes f = Some types -> NoDup types)
  /\ GraphFilters.textId f <> Some ""
  /\ GraphFilters.language f <> Some "".
Proof.
  intros Hnodup Hin. unfold GraphFilters.handleApplyFilters in Hin. simpl in Hin.
  apply list_elem_of_singleton in Hin as ->. simpl.
  split; [|split; [|split; apply or_else_not_empty]].
  - destruct (negb _); repeat (destruct (String.eqb _ _); [discriminate|]);
      destruct (GraphFilters.selectedNodeTypes st); simpl; discriminate.
  - intros types.
    assert (forall custom : option (list string),
               custom = (if (0 <? length (GraphFilters.selectedNodeTypes st))%nat
                         then Some (GraphFilters.selectedNodeTypes st) else None) ->
               custom = Some types -> NoDup types) as Hcustom.
    { intros custom -> Hsome. destruct (_ <? _)%nat; [|discriminate].
      by injection Hsome as <-. }
    destruct (negb _); [|by apply Hcustom].
    repeat (destruct (String.eqb _ _);
            [intros [= <-]; by_decision|]).
    by apply Hcustom.
Qed.

Lemma run_selection_NoDup (initialLimit : option Z) (events : list GraphFilters.Event) :
  NoDup (GraphFilters.selectedNodeTypes (GraphFilters.run initialLimit events).1).
Proof.
  induction events as [|ev events IH] using rev_ind; [constructor|].
  unfold GraphFilters.run in *. rewrite foldl_app. simpl.
  destruct (foldl _ _ events) as [st emitted]. simpl in *.
  destruct ev; simpl; try assumption.
  - exact (proj1 (toggled_selection_spec nodeType st IH)).
  - constructor.
Qed.

(** X10. Whatever the user does with the panel, a filter handed to
    [onFilterChange] never carries an empty list of node types, never lists
    a node type twice, and never carries an empty text id or an empty
    language: what is not chosen is left out. *)
Theorem emitted_filters_well_formed (initialLimit : option Z)
        (events : list GraphFilters.Event) (f : GraphFilters.Filters) :
  f ∈ (GraphFilters.run initialLimit events).2 ->
  GraphFilters.nodeTypes f <> Some []
  /\ (forall types, GraphFilters.nodeTypes f = Some types -> NoDup types)
  /\ GraphFilters.textId f <> Some ""
  /\ GraphFilters.language f <> Some "".
Proof.
  induction events as [|ev events IH] using rev_ind.
  - intros Hin. by apply elem_of_nil in Hin.
  - pose proof (run_selection_NoDup initialLimit events) as Hnodup.
    unfold GraphFilters.run in *. rewrite foldl_app. simpl.
    destruct (foldl _ _ events) as [st emitted]. simpl in *.
    destruct ev; simpl; rewrite ?app_nil_r; try exact IH.
    + intros Hin. apply elem_of_app in Hin as [Hin|Hin]; [by apply IH|].
      by apply (applied_filters_well_formed st).
    + intros Hin. apply elem_of_app in Hin as [Hin|Hin]; [by apply IH|].
      apply list_elem_of_singleton in Hin as ->. simpl.
      repeat split; try discriminate.
Qed.

Lemma emitted_filters_well_formed_witness :
  GraphFilters.nodeTypes
    {| GraphFilters.textId := None;
       GraphFilters.language := Some "btz";
       GraphFilters.nodeTypes := None;
       GraphFilters.limit := 50 |} <> Some [].
Proof.
  apply (emitted_filters_well_formed (Some 50)
           [GraphFilters.ChangeLanguage "btz"; GraphFilters.Toggle "Word";
            GraphFilters.Toggle "Word"; GraphFilters.Apply]).
  vm_compute. apply list_elem_of_here.
Defined.

(** X11. A detail level of high, medium, detailed or full replaces the
    ticked node types altogether: the filter emitted does not depend on
    them. With any other level - "all", or a value the switch does not know
    - the ticked types are emitted, in the order they were ticked, or
    nothing when none is ticked. *)
Theorem hierarchy_level_overrides (st : GraphFilters.State) :
  (GraphFilters.hierarchyLevel st ∈ ["high"; "medium"; "detailed"; "full"] ->
   forall ticked,
     (GraphFilters.handleApplyFilters
        {| GraphFilters.selectedText := GraphFilters.selectedText st;
           GraphFilters.selectedLanguage := GraphFilters.selectedLanguage st;
           GraphFilters.selectedNodeTypes := ticked;
           GraphFilters.limit_state := GraphFilters.limit_state st;
           GraphFilters.hierarchyLevel := GraphFilters.hierarchyLevel st |}).2
     = (GraphFilters.handleApplyFilters st).2)
  /\ (GraphFilters.hierarchyLevel st ∉ ["high"; "medium"; "detailed"; "full"] ->
      GraphFilters.nodeTypes <$> (GraphFilters.handleApplyFilters st).2
      = [ match GraphFilters.selectedNodeTypes st with
          | [] => None
          | ticked => Some ticked
          end ]).
Proof.
  split.
  - intros Hlevel ticked. unfold GraphFilters.handleApplyFilters. simpl.
    rewrite !elem_of_cons in Hlevel.
    destruct Hlevel as [->|[->|[->|[->|Hnil]]]]; try reflexivity.
    by apply elem_of_nil in Hnil.
  - intros Hlevel. unfold GraphFilters.handleApplyFilters. simpl.
    rewrite !not_elem_of_cons in Hlevel. destruct Hlevel as (H1 & H2 & H3 & H4 & _).
    apply String.eqb_neq in H1, H2, H3, H4. rewrite H1, H2, H3, H4.
    destruct (negb _); by destruct (GraphFilters.selectedNodeTypes st).
Qed.

Lemma hierarchy_level_overrides_witness :
  GraphFilters.nodeTypes <$> (GraphFilters.handleApplyFilters two_types_selected).2
  = [Some ["Word"; "Gloss"]].
Proof.
  apply (proj2 (hierarchy_level_overrides two_types_selected)).
  by_decision.
Defined.


(** * The statistics panel *)

Section Statistics.

Variable DatabaseStats : Type.

Local Abbreviation State := (DatabaseStatistics.State DatabaseStats).
Local Abbreviation Response := (DatabaseStatistics.Response DatabaseStats).

Lemma fetchStats_failing_run (isRefresh : bool) (settled : Completion Response)
      (now : Z) (st : State) (message : string) :
  DatabaseStatistics.Fails DatabaseStats settled message ->
  DatabaseStatistics.fetchStats DatabaseStats isRefresh settled now st
  = (Normal tt,
     {| DatabaseStatistics.stats := DatabaseStatistics.stats _ st;
        DatabaseStatistics.isLoading := false;
        DatabaseStatistics.isRefreshing := false;
        DatabaseStatistics.error := Some message;
        DatabaseStatistics.lastUpdated := DatabaseStatistics.lastUpdated _ st |}).
Proof.
  intros Hfails.
  unfold DatabaseStatistics.fetchStats, DatabaseStatistics.fetchStats_begin,
    DatabaseStatistics.fetchStats_settle.
  destruct Hfails as [m| |r Hok|r m Hok Hjson|r Hok Hjson], isRefresh;
    cbv [act_bind act_finally act_try_catch act_await act_throw act_ret act_set
         DatabaseStatistics.setStats DatabaseStatistics.setIsLoading
         DatabaseStatistics.setIsRefreshing DatabaseStatistics.setError
         DatabaseStatistics.setLastUpdated];
    simpl; rewrite ?Hok; simpl; rewrite ?Hjson; reflexivity.
Qed.

Lemma fetchStats_succeeding_run (isRefresh : bool) (response : Response)
      (data : DatabaseStats) (now : Z) (st : State) :
  DatabaseStatistics.ok _ response = true ->
  DatabaseStatistics.json _ response = Normal data ->
  DatabaseStatistics.fetchStats DatabaseStats isRefresh (Normal response) now st
  = (Normal tt,
     {| DatabaseStatistics.stats := Some data;
        DatabaseStatistics.isLoading := false;
        DatabaseStatistics.isRefreshing := false;
        DatabaseStatistics.error := None;
        DatabaseStatistics.lastUpdated := Some now |}).
Proof.
  intros Hok Hjson.
  unfold DatabaseStatistics.fetchStats, DatabaseStatistics.fetchStats_begin,
    DatabaseStatistics.fetchStats_settle.
  destruct isRefresh;
    cbv [act_bind act_finally act_try_catch act_await act_throw act_ret act_set
         DatabaseStatistics.setStats DatabaseStatistics.setIsLoading
         DatabaseStatistics.setIsRefreshing DatabaseStatistics.setError
         DatabaseStatistics.setLastUpdated];
    simpl; rewrite Hok; simpl; rewrite Hjson; reflexivity.
Qed.

(** X13. When the statistics cannot be fetched - the fetch rejects, the
    status is not a 2xx one, or the body is not JSON - [fetchStats] still
    completes without throwing: both busy flags are cleared, the statistics
    and the time shown before are kept, and [error] holds the text of the
    failure: the message of the Error thrown, "Failed to fetch statistics"
    for a bad status, "Failed to load statistics" for anything else
    thrown. *)
Theorem fetchStats_failure (isRefresh : bool) (settled : Completion Response)
        (now : Z) (st : State) (message : string) :
  DatabaseStatistics.Fails DatabaseStats settled message ->
  exists st',
    DatabaseStatistics.fetchStats DatabaseStats isRefresh settled now st = (Normal tt, st')
    /\ DatabaseStatistics.stats _ st' = DatabaseStatistics.stats _ st
    /\ DatabaseStatistics.lastUpdated _ st' = DatabaseStatistics.lastUpdated _ st
    /\ DatabaseStatistics.error _ st' = Some message
    /\ DatabaseStatistics.isLoading _ st' = false
    /\ DatabaseStatistics.isRefreshing _ st' = false.
Proof.
  intros Hfails. eexists. split; [by apply fetchStats_failing_run|].
  by repeat split.
Qed.

Lemma fetchStats_outcomes (settled : Completion Response) :
  (exists message, DatabaseStatistics.Fails DatabaseStats settled message)
  \/ (exists response data,
         settled = Normal response
         /\ DatabaseStatistics.ok _ response = true
         /\ DatabaseStatistics.json _ response = Normal data).
Proof.
  destruct settled as [response|[message|]].
  - destruct (DatabaseStatistics.ok _ response) eqn:Hok.
    + destruct (DatabaseStatistics.json _ response) as [data|[message|]] eqn:Hjson.
      * right. by exists response, data.
      * left. exists message. by apply DatabaseStatistics.Fails_json_Error.
      * left. eexists. by apply DatabaseStatistics.Fails_json_other.
    + left. eexists. by apply DatabaseStatistics.Fails_status.
  - left. exists message. constructor.
  - left. eexists. constructor.
Qed.

(** X14. Once [fetchStats] has completed the panel never shows its loader.
    After a failure it shows the text of the failure instead of the
    statistics, also when statistics fetched earlier are still there; only
    a failure whose text is empty shows no error at all, and the panel then
    shows what it has. *)
Theorem view_after_fetchStats (isRefresh : bool) (settled : Completion Response)
        (now : Z) (st : State) :
  let st' := (DatabaseStatistics.fetchStats DatabaseStats isRefresh settled now st).2 in
  DatabaseStatistics.render _ st' <> DatabaseStatistics.Loading _
  /\ (forall message,
         DatabaseStatistics.Fails DatabaseStats settled message ->
         message <> "" ->
         DatabaseStatistics.render _ st' = DatabaseStatistics.ErrorBox _ message)
  /\ (DatabaseStatistics.Fails DatabaseStats settled "" ->
      DatabaseStatistics.render _ st'
      = match DatabaseStatistics.stats _ st with
        | None => DatabaseStatistics.Nothing _
        | Some shown =>
            DatabaseStatistics.Panel _ shown (DatabaseStatistics.lastUpdated _ st)
        end).
Proof.
  intros st'. subst st'. split; [|split].
  - destruct (fetchStats_outcomes settled)
      as [[message Hfails]|(response & data & -> & Hok & Hjson)].
    + rewrite (fetchStats_failing_run _ _ _ _ _ Hfails).
      unfold DatabaseStatistics.render, or_else. simpl.
      destruct (decide (message = "")); [|discriminate].
      by destruct (DatabaseStatistics.stats _ st).
    + by rewrite (fetchStats_succeeding_run _ _ _ _ _ Hok Hjson).
  - intros message Hfails Hne. rewrite (fetchStats_failing_run _ _ _ _ _ Hfails).
    unfold DatabaseStatistics.render, or_else. simpl.
    by destruct (decide (message = "")).
  - intros Hfails. by rewrite (fetchStats_failing_run _ _ _ _ _ Hfails).
Qed.

(** X15. While the statistics are fetched for the first time the panel
    shows its loader. While they are fetched again on a panel that is not
    loading, it goes on showing the statistics it has, and an error shown
    before is gone at once. *)
Theorem view_while_fetching (st : State) :
  DatabaseStatistics.render _ (DatabaseStatistics.fetchStats_begin _ false st).2
  = DatabaseStatistics.Loading _
  /\ (DatabaseStatistics.isLoading _ st = false ->
      DatabaseStatistics.render _ (DatabaseStatistics.fetchStats_begin _ true st).2
      = match DatabaseStatistics.stats _ st with
        | None => DatabaseStatistics.Nothing _
        | Some shown =>
            DatabaseStatistics.Panel _ shown (DatabaseStatistics.lastUpdated _ st)
        end).
Proof.
  split; [reflexivity|]. intros Hidle.
  unfold DatabaseStatistics.render. simpl. by rewrite Hidle.
Qed.

End Statistics.

Lemma fetchStats_failure_witness :
  exists st',
    DatabaseStatistics.fetchStats Z true (Normal bad_gateway) 5000 loaded_statistics
    = (Normal tt, st')
    /\ DatabaseStatistics.stats _ st' = Some 42
    /\ DatabaseStatistics.lastUpdated _ st' = Some 1000
    /\ DatabaseStatistics.error _ st' = Some "Failed to fetch statistics"
    /\ DatabaseStatistics.isLoading _ st' = false
    /\ DatabaseStatistics.isRefreshing _ st' = false.
Proof.
  apply (fetchStats_failure Z true (Normal bad_gateway) 5000 loaded_statistics).
  by apply DatabaseStatistics.Fails_status.
Defined.

Lemma view_after_fetchStats_witness :
  DatabaseStatistics.render _
    (DatabaseStatistics.fetchStats Z true (Normal bad_gateway) 5000 loaded_statistics).2
  = DatabaseStatistics.ErrorBox _ "Failed to fetch statistics".
Proof.
  apply (proj1 (proj2 (view_after_fetchStats Z true (Normal bad_gateway) 5000
                         loaded_statistics))).
  - by apply DatabaseStatistics.Fails_status.
  - discriminate.
Defined.

Lemma view_while_fetching_witness :
  DatabaseStatistics.render _
    (DatabaseStatistics.fetchStats_begin _ true loaded_statistics).2
  = DatabaseStatistics.Panel _ 42 (Some 1000).
Proof.
  apply (proj2 (view_while_fetching Z loaded_statistics)). reflexivity.
Defined.

(** X16. [formatTime] says "Just now" for a time less than a minute ago -
    and for one that lies ahead; from one minute up to an hour it says the
    whole minutes elapsed, a number from 1 to 59, followed by "m ago"; from
    an hour on it gives the time of day in the browser's locale. *)
Theorem formatTime_ranges (toLocaleTimeString : Z -> string) (now date : Z) :
  (now - date < 60000 ->
   DatabaseStatistics.formatTime toLocaleTimeString now date = "Just now")
  /\ (60000 <= now - date < 3600000 ->
      DatabaseStatistics.formatTime toLocaleTimeString now date
      = pretty ((now - date) / 60000) +:+ "m ago"
      /\ 1 <= (now - date) / 60000 <= 59)
  /\ (3600000 <= now - date ->
      DatabaseStatistics.formatTime toLocaleTimeString now date
      = toLocaleTimeString date).
Proof.
  unfold DatabaseStatistics.formatTime.
  assert ((now - date) / 1000 / 60 = (now - date) / 60000) as Hminutes
      by (rewrite Z.div_div by lia; reflexivity).
  pose proof (Z.div_mod (now - date) 1000 ltac:(lia)) as Hsec.
  pose proof (Z.mod_pos_bound (now - date) 1000 ltac:(lia)) as Hsec'.
  pose proof (Z.div_mod (now - date) 60000 ltac:(lia)) as Hmin.
  pose proof (Z.mod_pos_bound (now - date) 60000 ltac:(lia)) as Hmin'.
  split; [|split].
  - intros Hrecent.
    destruct (Z.ltb_spec ((now - date) / 1000) 60); [reflexivity | lia].
  - intros [Hlo Hhi].
    destruct (Z.ltb_spec ((now - date) / 1000) 60); [lia|].
    destruct (Z.ltb_spec ((now - date) / 1000) 3600); [|lia].
    rewrite Hminutes. split; [reflexivity | lia].
  - intros Hold.
    destruct (Z.ltb_spec ((now - date) / 1000) 60); [lia|].
    destruct (Z.ltb_spec ((now - date) / 1000) 3600); [lia | reflexivity].
Qed.

Lemma formatTime_ranges_witness :
  DatabaseStatistics.formatTime (fun _ => "09:41") 1000000 100000 = "15m ago".
Proof.
  destruct (formatTime_ranges (fun _ => "09:41") 1000000 100000) as (_ & Hminutes & _).
  destruct Hminutes as [Hlabel _]; [lia|].
  exact Hlabel.
Defined.

(** * The upload form *)

Lemma substring_all (s : string) : substring 0 (String.length s) s = s.
Proof. induction s as [|c s IH]; simpl; [reflexivity | by rewrite IH]. Qed.

Lemma substring_skip_prefix (p s : string) (m : nat) :
  substring (String.length p) m (p +:+ s) = substring 0 m s.
Proof. induction p as [|c p IH]; simpl; [reflexivity | exact IH]. Qed.

Lemma substring_split (s : string) (k : nat) :
  (k <= String.length s)%nat ->
  s = substring 0 k s +:+ substring k (String.length s - k) s.
Proof.
  revert k. induction s as [|c s IH]; intros k Hk; simpl in Hk.
  - assert (k = 0%nat) as -> by lia. reflexivity.
  - destruct k as [|k]; simpl.
    + by rewrite substring_all.
    + change (String c s
              = String c (substring 0 k s +:+ substring k (String.length s - k) s)).
      f_equal. apply IH. lia.
Qed.

(** [endsWith] holds exactly of the strings that are some prefix followed by
    the suffix. *)
Lemma endsWith_spec (s suffix : string) :
  FileUpload.endsWith s suffix = true <-> exists prefix, s = prefix +:+ suffix.
Proof.
  unfold FileUpload.endsWith. split.
  - destruct (Nat.leb_spec (String.length suffix) (String.length s)) as [Hle|];
      [|discriminate].
    intros Heq. apply String.eqb_eq in Heq.
    exists (substring 0 (String.length s - String.length suffix) s).
    rewrite (substring_split s (String.length s - String.length suffix)) at 1 by lia.
    f_equal.
    replace (String.length s - (String.length s - String.length suffix))%nat
      with (String.length suffix) by lia.
    exact Heq.
  - intros [prefix ->]. rewrite string_length_append.
    destruct (Nat.leb_spec (String.length suffix)
                (String.length prefix + String.length suffix)) as [_|]; [|lia].
    replace (String.length prefix + String.length suffix - String.length suffix)%nat
      with (String.length prefix) by lia.
    rewrite substring_skip_prefix, substring_all. apply String.eqb_refl.
Qed.

(** X17. Of the files chosen only the first counts. If its name ends in
    ".flextext" or ".eaf" (in lower case) it becomes the selected file and
    the status goes back to idle; otherwise the status becomes error with
    the message asking for such a file, and the file selected before, if
    any, stays selected. *)
Theorem file_choice_rule (file : FileUpload.File) (rest : list FileUpload.File)
        (st : FileUpload.State) :
  let st' := FileUpload.handleFileSelect (Some (file :: rest)) st in
  ((exists prefix, FileUpload.name file = prefix +:+ ".flextext"
                   \/ FileUpload.name file = prefix +:+ ".eaf") ->
   FileUpload.selectedFile st' = Some file
   /\ FileUpload.uploadStatus st' = FileUpload.idle
   /\ FileUpload.statusMessage st' = FileUpload.statusMessage st)
  /\ (~ (exists prefix, FileUpload.name file = prefix +:+ ".flextext"
                        \/ FileUpload.name file = prefix +:+ ".eaf") ->
      FileUpload.selectedFile st' = FileUpload.selectedFile st
      /\ FileUpload.uploadStatus st' = FileUpload.error
      /\ FileUpload.statusMessage st' = "Please upload a .flextext or .eaf file").
Proof.
  intros st'. subst st'. unfold FileUpload.handleFileSelect.
  destruct (FileUpload.endsWith (FileUpload.name file) ".flextext") eqn:Hflex;
    [|destruct (FileUpload.endsWith (FileUpload.name file) ".eaf") eqn:Heaf]; simpl.
  - split; [by intros _ | intros Hnot]. destruct Hnot.
    apply endsWith_spec in Hflex as [prefix Hflex]. exists prefix. by left.
  - split; [by intros _ | intros Hnot]. destruct Hnot.
    apply endsWith_spec in Heaf as [prefix Heaf]. exists prefix. by right.
  - split; [|by intros _]. intros [prefix [Hname|Hname]].
    + assert (FileUpload.endsWith (FileUpload.name file) ".flextext" = true)
        by (apply endsWith_spec; by exists prefix).
      congruence.
    + assert (FileUpload.endsWith (FileUpload.name file) ".eaf" = true)
        by (apply endsWith_spec; by exists prefix).
      congruence.
Qed.

Lemma file_choice_rule_witness :
  FileUpload.selectedFile (FileUpload.handleFileSelect (Some [text_file]) elan_chosen)
  = FileUpload.selectedFile elan_chosen
  /\ FileUpload.uploadStatus (FileUpload.handleFileSelect (Some [text_file]) elan_chosen)
     = FileUpload.error
  /\ FileUpload.statusMessage (FileUpload.handleFileSelect (Some [text_file]) elan_chosen)
     = "Please upload a .flextext or .eaf file".
Proof.
  apply (proj2 (file_choice_rule text_file [] elan_chosen)).
  intros [prefix [Hname|Hname]].
  - assert (FileUpload.endsWith "notes.txt" ".flextext" = true) as Hends
        by (apply endsWith_spec; by exists prefix).
    discriminate Hends.
  - assert (FileUpload.endsWith "notes.txt" ".eaf" = true) as Hends
        by (apply endsWith_spec; by exists prefix).
    discriminate Hends.
Defined.

(** X18. Dropping files on the form does what choosing them in the dialog
    does, once the drag highlight is cleared; and when no file comes with
    the event nothing else changes. *)
Theorem drop_like_choice (files : option (list FileUpload.File)) (st : FileUpload.State) :
  FileUpload.handleDrop files st
  = FileUpload.handleFileSelect files (FileUpload.handleDragLeave st)
  /\ FileUpload.handleFileSelect None st = st
  /\ FileUpload.handleFileSelect (Some []) st = st.
Proof. by destruct files as [[|file rest]|]. Qed.

Lemma selected_file_accepted (events : list FileUpload.Event) (file : FileUpload.File) :
  FileUpload.selectedFile (FileUpload.run events) = Some file ->
  (FileUpload.endsWith (FileUpload.name file) ".flextext"
   || FileUpload.endsWith (FileUpload.name file) ".eaf")%bool = true.
Proof.
  revert file. induction events as [|ev events IH] using rev_ind; intros file.
  - discriminate.
  - unfold FileUpload.run in *. rewrite foldl_app. simpl.
    set (st := foldl FileUpload.handle FileUpload.initial events) in *.
    assert (forall files st0,
               FileUpload.selectedFile st0 = FileUpload.selectedFile st ->
               FileUpload.selectedFile (FileUpload.handleFileSelect files st0) = Some file ->
               (FileUpload.endsWith (FileUpload.name file) ".flextext"
                || FileUpload.endsWith (FileUpload.name file) ".eaf")%bool = true)
      as Hselect.
    { intros [[|first rest]|] st0 Hsame; simpl; rewrite ?Hsame; try apply IH.
      destruct (_ || _)%bool eqn:Hok; simpl; rewrite ?Hsame; [|apply IH].
      by intros [= <-]. }
    destruct ev; simpl; try apply IH; try discriminate.
    + apply (Hselect files (FileUpload.setIsDragging false st)). reflexivity.
    + by apply Hselect.
Qed.

(** X19. Whatever is dropped, chosen or removed, the file the form holds
    has a name ending in ".flextext" or ".eaf". It is sent to the FLEx
    endpoint exactly when its name ends in ".flextext"; and when it is sent
    to the ELAN endpoint its name ends in ".eaf". *)
Theorem selected_file_endpoint (events : list FileUpload.Event) (file : FileUpload.File) :
  FileUpload.selectedFile (FileUpload.run events) = Some file ->
  (exists prefix, FileUpload.name file = prefix +:+ ".flextext"
                  \/ FileUpload.name file = prefix +:+ ".eaf")
  /\ (FileUpload.endpoint file = "/api/v1/linguistic/upload-flextext"
      <-> exists prefix, FileUpload.name file = prefix +:+ ".flextext")
  /\ (FileUpload.endpoint file = "/api/v1/linguistic/upload-elan" ->
      exists prefix, FileUpload.name file = prefix +:+ ".eaf").
Proof.
  intros Hselected. apply selected_file_accepted in Hselected.
  unfold FileUpload.endpoint, FileUpload.isFlextext.
  destruct (FileUpload.endsWith (FileUpload.name file) ".flextext") eqn:Hflex.
  - apply endsWith_spec in Hflex as [prefix Hflex].
    split; [exists prefix; by left|]. split; [|discriminate].
    split; [intros _; by exists prefix | reflexivity].
  - simpl in Hselected. apply endsWith_spec in Hselected as [prefix Heaf].
    split; [exists prefix; by right|]. split.
    + split; [discriminate|]. intros Hends. apply endsWith_spec in Hends. congruence.
    + intros _. by exists prefix.
Qed.

Lemma selected_file_endpoint_witness :
  exists prefix, FileUpload.name elan_file = prefix +:+ ".eaf".
Proof.
  destruct (selected_file_endpoint
              [FileUpload.DragEnter; FileUpload.Drop (Some [elan_file])] elan_file)
    as (_ & _ & Helan).
  - reflexivity.
  - apply Helan. reflexivity.
Defined.

(** X20. The simulated progress climbs by ten every tick and stops at 90:
    after n ticks from 0 it shows the smaller of 10 n and 90, so it never
    shows an upload as complete before the server has answered. *)
Theorem progress_stops_at_90 (n : nat) :
  Nat.iter n FileUpload.progressTick 0 = Z.min (10 * Z.of_nat n) 90.
Proof.
  induction n as [|n IH]; [reflexivity|].
  rewrite Nat.iter_succ, IH. unfold FileUpload.progressTick.
  destruct (Z.leb_spec 90 (Z.min (10 * Z.of_nat n) 90)); lia.
Qed.

(** * The gateway and its callers *)

(** X21. When a step of the gateway's handler throws, the statistics panel
    does not show what went wrong: the gateway's answer is not a 2xx one, so
    the panel keeps the statistics it has and reports "Failed to fetch
    statistics", whatever message the envelope carries. *)
Theorem gateway_failure_in_the_panel (Data : Type) rt backend_url request context e
        (parsed : Completion Data) (isRefresh : bool) (now : Z)
        (st : DatabaseStatistics.State Data) :
  Throws rt backend_url request context e ->
  exists response,
    (handler rt backend_url request context []).1 = Normal response
    /\ DatabaseStatistics.fetchStats Data isRefresh
         (Normal (seen_by_browser response parsed)) now st
       = (Normal tt,
          {| DatabaseStatistics.stats := DatabaseStatistics.stats _ st;
             DatabaseStatistics.isLoading := false;
             DatabaseStatistics.isRefreshing := false;
             DatabaseStatistics.error := Some "Failed to fetch statistics";
             DatabaseStatistics.lastUpdated := DatabaseStatistics.lastUpdated _ st |}).
Proof.
  intros Hthrows. exists (error_envelope backend_url e).
  split; [by apply Throws_caught|].
  apply fetchStats_failing_run. by apply DatabaseStatistics.Fails_status.
Qed.

Lemma gateway_failure_in_the_panel_witness :
  exists response,
    (handler refusing_runtime "http://localhost:8000" plain_get sample_context []).1
    = Normal response
    /\ DatabaseStatistics.fetchStats Z true
         (Normal (seen_by_browser response (Normal 43))) 5000 loaded_statistics
       = (Normal tt,
          {| DatabaseStatistics.stats := Some 42;
             DatabaseStatistics.isLoading := false;
             DatabaseStatistics.isRefreshing := false;
             DatabaseStatistics.error := Some "Failed to fetch statistics";
             DatabaseStatistics.lastUpdated := Some 1000 |}).
Proof.
  apply (gateway_failure_in_the_panel Z refusing_runtime "http://localhost:8000"
           plain_get sample_context (ThrownError "fetch failed")
           (Normal 43) true 5000 loaded_statistics).
  apply (Throws_fetch _ _ _ _
           (outbound refusing_runtime "http://localhost:8000" plain_get sample_context
                     None));
    [|reflexivity].
  rewrite handler_stages. simpl. apply list_elem_of_here.
Defined.
